(** * get-youtube-chapters: a shallow embedding of [src/index.js]

    Strings are lists of characters (one [ascii] per UTF-16 code unit of
    the input; the alphabet is the 8-bit [ascii] type, where only the ASCII
    whitespace characters count as whitespace).  The JavaScript regular
    expressions of the source are embedded as values of [regex] and run by
    a backtracking matcher that follows the ECMAScript semantics of the
    constructs they use: single-character classes repeated greedily or
    lazily, optional groups, alternation, capturing groups, and the anchors
    [^] and [$] with and without the [m] flag. *)

From Stdlib Require Import List Ascii String Arith Lia ZArith Bool.
Import ListNotations.

Definition str := list ascii.
Definition s2l (s : string) : str := list_ascii_of_string s.

(** ** Characters *)

Definition LF : ascii := ascii_of_nat 10.
Definition CR : ascii := ascii_of_nat 13.

Definition is_digit (a : ascii) : bool :=
  let n := nat_of_ascii a in (48 <=? n) && (n <=? 57).

(** ECMAScript LineTerminator restricted to the alphabet: LF and CR. *)
Definition is_line_terminator (a : ascii) : bool :=
  let n := nat_of_ascii a in (n =? 10) || (n =? 13).

(** ECMAScript WhiteSpace and LineTerminator restricted to the alphabet:
    TAB, LF, VT, FF, CR, SPACE and NO-BREAK SPACE (U+00A0).  Used both by
    [\s] and by [trim]. *)
Definition is_space (a : ascii) : bool :=
  let n := nat_of_ascii a in ((9 <=? n) && (n <=? 13)) || (n =? 32) || (n =? 160).

(** ** Regular expressions *)

(** Single-character classes: [\d], [\s] and [.] (any character but a
    line terminator). *)
Inductive charclass := CDigit | CSpace | CDot.

Definition class_test (c : charclass) (a : ascii) : bool :=
  match c with
  | CDigit => is_digit a
  | CSpace => is_space a
  | CDot => negb (is_line_terminator a)
  end.

Inductive regex :=
| Emp                                   (* the empty pattern *)
| Chr (a : ascii)                       (* a literal character *)
| Rep (c : charclass) (min : nat) (greedy : bool)
                                        (* c{min,}, greedy or lazy ([?]) *)
| Cat (r1 r2 : regex)                   (* r1 r2 *)
| Alt (r1 r2 : regex)                   (* r1|r2 *)
| Opt (r : regex)                       (* (?:r)? , greedy *)
| Grp (n : nat) (r : regex)             (* capturing group number n *)
| Bol                                   (* ^ *)
| Eol.                                  (* $ *)

Definition cats (rs : list regex) : regex := fold_right Cat Emp rs.

(** A RegExp object: its pattern and whether it carries the [m] flag.
    None of the source's patterns carries [g] or [y], so [exec] and
    [test] neither read nor write [lastIndex]. *)
Record regexp := { rx : regex; multiline : bool }.

(** Capture positions: group [n] spans [b, e) when [Some (b, e)];
    [None] is JavaScript's [undefined]. *)
Definition captures := nat -> option (nat * nat).
Definition no_captures : captures := fun _ => None.
Definition set_capture (n b e : nat) (cap : captures) : captures :=
  fun j => if Nat.eqb j n then Some (b, e) else cap j.

Fixpoint run_len (c : charclass) (l : str) : nat :=
  match l with
  | [] => 0
  | a :: l' => if class_test c a then S (run_len c l') else 0
  end.

Fixpoint first_some {A B : Type} (f : A -> option B) (l : list A) : option B :=
  match l with
  | [] => None
  | x :: l' => match f x with Some y => Some y | None => first_some f l' end
  end.

(** The iteration counts a repetition tries, in order: most first when
    greedy, fewest first when lazy. *)
Definition rep_counts (mn n : nat) (greedy : bool) : list nat :=
  if greedy then rev (seq mn (S n - mn)) else seq mn (S n - mn).

Section Matcher.
Variable input : str.
Variable ml : bool.

Definition at_bol (i : nat) : bool :=
  match i with
  | 0 => true
  | S j => ml && match nth_error input j with
                 | Some a => is_line_terminator a
                 | None => false
                 end
  end.

Definition at_eol (i : nat) : bool :=
  (i =? List.length input) ||
  (ml && match nth_error input i with
         | Some a => is_line_terminator a
         | None => false
         end).

Definition mresult := option (nat * captures).

(** Continuation-passing backtracking matcher: [mt r i cap k] matches [r]
    at position [i] and hands each candidate end position, in the order
    ECMAScript tries them, to the continuation [k]. *)
Fixpoint mt (r : regex) (i : nat) (cap : captures)
         (k : nat -> captures -> mresult) : mresult :=
  match r with
  | Emp => k i cap
  | Chr a =>
      match nth_error input i with
      | Some b => if ascii_dec a b then k (S i) cap else None
      | None => None
      end
  | Rep c mn g =>
      first_some (fun j => k (i + j) cap)
                 (rep_counts mn (run_len c (skipn i input)) g)
  | Cat r1 r2 => mt r1 i cap (fun i' cap' => mt r2 i' cap' k)
  | Alt r1 r2 =>
      match mt r1 i cap k with
      | Some x => Some x
      | None => mt r2 i cap k
      end
  | Opt r' =>
      match mt r' i cap k with
      | Some x => Some x
      | None => k i cap
      end
  | Grp n r' => mt r' i cap (fun i' cap' => k i' (set_capture n i i' cap'))
  | Bol => if at_bol i then k i cap else None
  | Eol => if at_eol i then k i cap else None
  end.

End Matcher.

(** The continuation that ends a match successfully. *)
Definition final_k : nat -> captures -> mresult := fun e cap => Some (e, cap).

(** [RegExp.prototype.exec] for a non-global, non-sticky RegExp: try
    every start position from 0 to the length of the input, leftmost
    first.  The result is (start, end, captures). *)
Definition exec (r : regexp) (input : str) : option (nat * nat * captures) :=
  first_some
    (fun s =>
       match mt input (multiline r) (rx r) s no_captures final_k with
       | Some (e, cap) => Some (s, e, cap)
       | None => None
       end)
    (seq 0 (S (List.length input))).

(** [RegExp.prototype.test]. *)
Definition test (r : regexp) (input : str) : bool :=
  match exec r input with Some _ => true | None => false end.

(** [String.prototype.replace(r, '')] for a non-global RegExp: the first
    match is removed. *)
Definition replace_empty (input : str) (r : regexp) : str :=
  match exec r input with
  | Some (s, e, _) => firstn s input ++ skipn e input
  | None => input
  end.

(** [match[n]] of an [exec] result. *)
Definition group (input : str) (cap : captures) (n : nat) : option str :=
  match cap n with
  | Some (b, e) => Some (firstn (e - b) (skipn b input))
  | None => None
  end.

(** JavaScript's [a || b] on a match element (a string or undefined):
    [undefined] and the empty string are falsy. *)
Definition js_or (a b : option str) : option str :=
  match a with
  | Some (_ :: _) => a
  | _ => b
  end.

Definition digit_value (a : ascii) : Z := Z.of_nat (nat_of_ascii a - 48).

Definition decimal_value (l : str) : Z :=
  fold_left (fun acc a => (acc * 10 + digit_value a)%Z) l 0%Z.

Fixpoint take_digits (l : str) : str :=
  match l with
  | a :: l' => if is_digit a then a :: take_digits l' else []
  | [] => []
  end.

(** ** JavaScript numbers

    The code computes with IEEE-754 doubles.  The values it produces are
    non-negative integers, [+Infinity] and [NaN], so [number] holds just
    those; [*] and [+] round the exact result to 53 significant bits, ties
    to even, and give [Infinity] when the rounded value reaches [2^1024]. *)
Inductive number := Num (z : Z) | Infinity | NaN.

(** Round a non-negative integer to the nearest double. *)
Definition round_double (z : Z) : number :=
  if (z <? 2 ^ 53)%Z then Num z else
  let k := (Z.log2 z - 52)%Z in
  let q := Z.shiftr z k in
  let r := (z - Z.shiftl q k)%Z in
  let half := Z.shiftl 1 (k - 1) in
  let q' := if (half <? r)%Z || ((r =? half)%Z && Z.odd q) then (q + 1)%Z else q in
  let v := Z.shiftl q' k in
  if (2 ^ 1024 <=? v)%Z then Infinity else Num v.

Definition num_mul (a b : number) : number :=
  match a, b with
  | Num x, Num y => round_double (x * y)
  | Num Z0, Infinity | Infinity, Num Z0 => NaN
  | Num _, Infinity | Infinity, Num _ | Infinity, Infinity => Infinity
  | _, _ => NaN
  end.

Definition num_add (a b : number) : number :=
  match a, b with
  | Num x, Num y => round_double (x + y)
  | NaN, _ | _, NaN => NaN
  | _, _ => Infinity
  end.

(** [parseInt(s, 10)] on the strings it receives here (a [\d+] capture or
    ['0']): the leading decimal digits, rounded to the nearest double;
    [NaN] when there is none. *)
Definition parseInt10 (s : str) : number :=
  match take_digits s with
  | [] => NaN
  | ds => round_double (decimal_value ds)
  end.

(** [String.prototype.trim]. *)
Definition ltrim (l : str) : str := skipn (run_len CSpace l) l.
Definition trim (l : str) : str := rev (ltrim (rev (ltrim l))).

(** ** The Timestamp Extractor: [parseFlexibleTimestamps] *)

Definition digits1 : regex := Rep CDigit 1 true.   (* \d+ *)
Definition spaces0 : regex := Rep CSpace 0 true.   (* \s* *)
Definition spaces1 : regex := Rep CSpace 1 true.   (* \s+ *)
Definition colon : regex := Chr ":"%char.

(** [(?:(\d+):)?(\d+):(\d+)] with groups [h], [m], [s]. *)
Definition hms (h m s : nat) : regex :=
  cats [Opt (cats [Grp h digits1; colon]); Grp m digits1; colon; Grp s digits1].

(** [/(?:\[\s*(?:(\d+):)?(\d+):(\d+)\s*\]|\(\s*(?:(\d+):)?(\d+):(\d+)\s*\)|(?:(\d+):)?(\d+):(\d+))/] *)
Definition timestampRegex : regexp :=
  {| rx := Alt (cats [Chr "["%char; spaces0; hms 1 2 3; spaces0; Chr "]"%char])
              (Alt (cats [Chr "("%char; spaces0; hms 4 5 6; spaces0; Chr ")"%char])
                   (hms 7 8 9));
     multiline := false |}.

(** [/^\d+\.\s*/] *)
Definition ordinalRegex : regexp :=
  {| rx := cats [Bol; digits1; Chr "."%char; spaces0]; multiline := false |}.

Definition zero_str : str := ["0"%char].

Definition parseFlexibleTimestamps (line : str) : number * str :=
  match exec timestampRegex line with
  | None => (Num 0, line)
  | Some (_, _, cap) =>
      let g := group line cap in
      let hours := parseInt10 (match js_or (g 1) (js_or (g 4) (js_or (g 7) (Some zero_str))) with
                               | Some s => s | None => zero_str end) in
      let minutes := parseInt10 (match js_or (g 2) (js_or (g 5) (js_or (g 8) (Some zero_str))) with
                                 | Some s => s | None => zero_str end) in
      let seconds := parseInt10 (match js_or (g 3) (js_or (g 6) (js_or (g 9) (Some zero_str))) with
                                 | Some s => s | None => zero_str end) in
      let timestamp := num_add (num_add (num_mul hours (Num 3600)) (num_mul minutes (Num 60)))
                               seconds in
      let title := trim (replace_empty (replace_empty line timestampRegex) ordinalRegex) in
      (timestamp, title)
  end.

(** ** The Line Normalizer: [skipEmptyLines] *)

(** [String.prototype.split('\n')]. *)
Fixpoint split_lf (l : str) : list str :=
  match l with
  | [] => [[]]
  | a :: l' =>
      let r := split_lf l' in
      if ascii_dec a LF then [] :: r
      else match r with
           | [] => [[a]]
           | x :: xs => (a :: x) :: xs
           end
  end.

Definition is_empty (l : str) : bool := match l with [] => true | _ => false end.

Definition skipEmptyLines (description : str) : list str :=
  filter (fun line => negb (is_empty (trim line))) (split_lf description).

(** ** The Format Parser Factory: [makeChapterParser] *)

Record chapter := { start : number; title : str }.

(** [Array.prototype.findIndex]; [None] stands for [-1]. *)
Fixpoint findIndex (p : str -> bool) (l : list str) : option nat :=
  match l with
  | [] => None
  | x :: l' => if p x then Some 0 else option_map S (findIndex p l')
  end.

(** The [for] loop over [chapterLines]: a line the [lineRx] does not match
    is skipped ([continue]); a matching one is pushed. *)
Fixpoint chapter_loop (lineRx : regexp) (chapterLines : list str)
         (chapters : list chapter) : list chapter :=
  match chapterLines with
  | [] => chapters
  | line :: rest =>
      match exec lineRx line with
      | None => chapter_loop lineRx rest chapters
      | Some _ =>
          let '(timestamp, title) := parseFlexibleTimestamps line in
          chapter_loop lineRx rest
            (chapters ++ [{| start := timestamp; title := trim title |}])
      end
  end.

(** [timestampIndex] and [textIndex] are shifted by one and then never
    read again, as in the source. *)
Definition makeChapterParser (startRx lineRx : regexp)
           (timestampIndex textIndex : nat) : str -> list chapter :=
  let timestampIndex := timestampIndex + 1 in
  let textIndex := textIndex + 1 in
  fun description =>
    let chapters := [] in
    let nonEmptyLines := skipEmptyLines description in
    match findIndex (test startRx) nonEmptyLines with
    | None => chapters
    | Some firstTimestamp =>
        let chapterLines := skipn firstTimestamp nonEmptyLines in
        chapter_loop lineRx chapterLines chapters
    end.

(** [addM]: add the [m] flag if it is not present. *)
Definition addM (r : regexp) : regexp :=
  if multiline r then r else {| rx := rx r; multiline := true |}.

(** ** The six formats *)

Definition lazy_any : regex := Rep CDot 0 false.   (* .*? *)
Definition greedy_any : regex := Rep CDot 0 true.  (* .* *)
(** [(?:\d+\.\s+)?] *)
Definition track_id : regex := Opt (cats [digits1; Chr "."%char; spaces1]).

(** [$timestamp $title]: [/^0?0:00/m] and [/^(?:(\d+):)?(\d+):(\d+)\s+(.*?)$/] *)
Definition lawfulStartRx : regexp :=
  {| rx := cats [Bol; Opt (Chr "0"%char); Chr "0"%char; colon; Chr "0"%char; Chr "0"%char];
     multiline := true |}.
Definition lawfulLineRx : regexp :=
  {| rx := cats [Bol; hms 1 2 3; spaces1; Grp 4 lazy_any; Eol]; multiline := false |}.
Definition lawfulParser := makeChapterParser lawfulStartRx lawfulLineRx 0 3.

(** [[$timestamp] $title]: [/^\[(?:0?0:00|00:00)\]/] and
    [/^\[(?:(\d+):)?(\d+):(\d+)\]\s+(.*?)$/] *)
Definition bracketsStartRx : regexp :=
  {| rx := cats [Bol; Chr "["%char;
                 Alt (cats [Opt (Chr "0"%char); Chr "0"%char; colon; Chr "0"%char; Chr "0"%char])
                     (cats [Chr "0"%char; Chr "0"%char; colon; Chr "0"%char; Chr "0"%char]);
                 Chr "]"%char];
     multiline := false |}.
Definition bracketsLineRx : regexp :=
  {| rx := cats [Bol; Chr "["%char; hms 1 2 3; Chr "]"%char; spaces1; Grp 4 lazy_any; Eol];
     multiline := false |}.
Definition bracketsParser := makeChapterParser bracketsStartRx bracketsLineRx 0 3.

(** [($timestamp) $title]: [/^\(0?0:00\)/m] and
    [/^\((?:(\d+):)?(\d+):(\d+)\)\s+(.*?)$/] *)
Definition parensStartRx : regexp :=
  {| rx := cats [Bol; Chr "("%char; Opt (Chr "0"%char); Chr "0"%char; colon;
                 Chr "0"%char; Chr "0"%char; Chr ")"%char];
     multiline := true |}.
Definition parensLineRx : regexp :=
  {| rx := cats [Bol; Chr "("%char; hms 1 2 3; Chr ")"%char; spaces1; Grp 4 lazy_any; Eol];
     multiline := false |}.
Definition parensParser := makeChapterParser parensStartRx parensLineRx 0 3.

(** [($track_id.) $title $timestamp]:
    [/^(?:\d+\.\s+)?(.*?)\s+(?:(\d+):)?(\d+):(\d+)$/] *)
Definition postfixRx : regexp :=
  {| rx := cats [Bol; track_id; Grp 1 lazy_any; spaces1; hms 2 3 4; Eol];
     multiline := false |}.
Definition postfixParser := makeChapterParser (addM postfixRx) postfixRx 1 0.

(** [($track_id.) $title ($timestamp)]:
    [/^(?:\d+\.\s+)?(.*?)\s+\(\s*(?:(\d+):)?(\d+):(\d+)\s*\)$/] *)
Definition postfixParenRx : regexp :=
  {| rx := cats [Bol; track_id; Grp 1 lazy_any; spaces1; Chr "("%char; spaces0;
                 hms 2 3 4; spaces0; Chr ")"%char; Eol];
     multiline := false |}.
Definition postfixParenParser := makeChapterParser (addM postfixParenRx) postfixParenRx 1 0.

(** [$track_id. $timestamp $title]: the optional track id, the timestamp
    [(?:(\d+):)?(\d+):(\d+)], [\s+], then a greedy [.*] title group and [$]. *)
Definition prefixRx : regexp :=
  {| rx := cats [Bol; track_id; hms 1 2 3; spaces1; Grp 4 greedy_any; Eol];
     multiline := false |}.
Definition prefixParser := makeChapterParser (addM prefixRx) prefixRx 0 3.

(** ** The Format Cascade: the exported [parseYouTubeChapters] *)

Definition parseYouTubeChapters (description : str) : list chapter :=
  let chapters := lawfulParser description in
  let chapters := if List.length chapters =? 0 then bracketsParser description else chapters in
  let chapters := if List.length chapters =? 0 then parensParser description else chapters in
  let chapters := if List.length chapters =? 0 then postfixParser description else chapters in
  let chapters := if List.length chapters =? 0 then postfixParenParser description else chapters in
  let chapters := if List.length chapters =? 0 then prefixParser description else chapters in
  chapters.

(** Descriptions built from lines. *)
Definition join (sep : str) (lines : list str) : str :=
  match lines with
  | [] => []
  | l :: ls => l ++ List.concat (map (fun x => (sep ++ x)%list) ls)
  end.
Definition join_lf (lines : list string) : str := join [LF] (map s2l lines).
Definition join_crlf (lines : list string) : str := join [CR; LF] (map s2l lines).

Definition ch (t : Z) (s : string) : chapter := {| start := Num t; title := s2l s |}.

(** The chapter a matching line contributes, as the loop body builds it. *)
Definition chapterOfLine (line : str) : chapter :=
  let '(timestamp, title) := parseFlexibleTimestamps line in
  {| start := timestamp; title := trim title |}.

(** The cascade policy of the spec: the first non-empty result wins. *)
Fixpoint first_nonempty (results : list (list chapter)) : list chapter :=
  match results with
  | [] => []
  | [] :: rest => first_nonempty rest
  | r :: _ => r
  end.

Definition formatParsers : list (str -> list chapter) :=
  [lawfulParser; bracketsParser; parensParser; postfixParser;
   postfixParenParser; prefixParser].

Definition formatStartRxs : list regexp :=
  [lawfulStartRx; bracketsStartRx; parensStartRx; addM postfixRx;
   addM postfixParenRx; addM prefixRx].

(** A character that starts none of the three timestamp shapes. *)
Definition opens_no_timestamp (a : ascii) : bool :=
  negb (is_digit a) && negb (Ascii.eqb a "["%char) && negb (Ascii.eqb a "("%char).

(** The first character of [l], if any, is outside class [c]. *)
Definition starts_outside (c : charclass) (l : str) : bool :=
  match l with
  | b :: _ => negb (class_test c b)
  | [] => true
  end.

(** ** Timestamps: their text and value *)

(** The text [h:m:s] ([Some h]) or [m:s] ([None]). *)
Definition hms_text (oh : option str) (dm ds : str) : str :=
  match oh with
  | Some dh => dh ++ ":"%char :: dm ++ ":"%char :: ds
  | None => dm ++ ":"%char :: ds
  end.

Definition hours_str (oh : option str) : str :=
  match oh with Some dh => dh | None => zero_str end.

Definition digit_string (l : str) : bool :=
  match l with [] => false | _ => forallb is_digit l end.

Definition hms_digits (oh : option str) (dm ds : str) : bool :=
  digit_string (hours_str oh) && digit_string dm && digit_string ds.

(** The three shapes of [timestampRegex]: bare, or in brackets or
    parentheses with optional whitespace inside. *)
Definition ts_shape (oh : option str) (dm ds : str) (t : str) : Prop :=
  t = hms_text oh dm ds \/
  exists sp1 sp2, forallb is_space sp1 = true /\ forallb is_space sp2 = true /\
    (t = "["%char :: sp1 ++ hms_text oh dm ds ++ sp2 ++ ["]"%char] \/
     t = "("%char :: sp1 ++ hms_text oh dm ds ++ sp2 ++ [")"%char]).

(** [hours * 3600 + minutes * 60 + seconds] in JavaScript numbers, and
    over the integers. *)
Definition js_total (oh : option str) (dm ds : str) : number :=
  num_add (num_add (num_mul (parseInt10 (hours_str oh)) (Num 3600))
                   (num_mul (parseInt10 dm) (Num 60)))
          (parseInt10 ds).

Definition exact_total (oh : option str) (dm ds : str) : Z :=
  (decimal_value (hours_str oh) * 3600 + decimal_value dm * 60 + decimal_value ds)%Z.

Definition nonneg_number (x : number) : Prop :=
  match x with Num z => (0 <= z)%Z | Infinity => True | NaN => False end.

(** The captures [(?:(\d+):)?(\d+):(\d+)] leaves, with groups [h], [m],
    [s], when it matches [hms_text oh dm ds] at [i]. *)
Definition mid_caps (m s i : nat) (dm ds : str) (cap : captures) : captures :=
  set_capture s (S (i + List.length dm)) (S (i + List.length dm) + List.length ds)
    (set_capture m i (i + List.length dm) cap).

Definition hms_caps (h m s i : nat) (oh : option str) (dm ds : str) (cap : captures) : captures :=
  match oh with
  | None => mid_caps m s i dm ds cap
  | Some dh => mid_caps m s (S (i + List.length dh)) dm ds (set_capture h i (i + List.length dh) cap)
  end.

(** ** RegExp objects and their [lastIndex]

    A RegExp object has a [lastIndex] property, which [exec] (the
    RegExpBuiltinExec operation, also behind [test]) reads and writes when
    the object has the [g] or the [y] flag.  The module makes twelve
    RegExp objects once, when it is loaded: the start and line patterns of
    the six parsers ([addM] makes a new object from each of its three
    arguments, none of which has the [m] flag), numbered 0 to 11 below.
    The two literals in [parseFlexibleTimestamps] are new objects at each
    call, so no state reaches them. *)
Record regexp_object := { pattern : regexp; global : bool; sticky : bool }.

(** The flags of the source's literals: none has [g] or [y]. *)
Definition literal (r : regexp) : regexp_object :=
  {| pattern := r; global := false; sticky := false |}.

(** RegExpBuiltinExec: the result and the new [lastIndex]. *)
Definition exec_obj (R : regexp_object) (input : str) (lastIndex : nat)
  : option (nat * nat * captures) * nat :=
  let gy := global R || sticky R in
  let li := if gy then lastIndex else 0 in
  let fail := (None, if gy then 0 else lastIndex) in
  if List.length input <? li then fail else
  let attempt s :=
    match mt input (multiline (pattern R)) (rx (pattern R)) s no_captures final_k with
    | Some (e, cap) => Some (s, e, cap)
    | None => None
    end in
  let res := if sticky R then attempt li
             else first_some attempt (seq li (S (List.length input) - li)) in
  match res with
  | None => fail
  | Some (s, e, cap) => (Some (s, e, cap), if gy then e else lastIndex)
  end.

(** The [lastIndex] of each of the module's RegExp objects. *)
Definition regs := nat -> nat.

Definition upd (sigma : regs) (o v : nat) : regs :=
  fun o' => if o' =? o then v else sigma o'.

Definition exec_st (o : nat) (R : regexp_object) (line : str) (sigma : regs)
  : option (nat * nat * captures) * regs :=
  let '(res, li) := exec_obj R line (sigma o) in (res, upd sigma o li).

Definition test_st (o : nat) (R : regexp_object) (line : str) (sigma : regs) : bool * regs :=
  let '(res, sigma') := exec_st o R line sigma in
  (match res with Some _ => true | None => false end, sigma').

Fixpoint findIndex_st (p : str -> regs -> bool * regs) (l : list str) (sigma : regs)
  : option nat * regs :=
  match l with
  | [] => (None, sigma)
  | x :: l' =>
      let '(b, sigma1) := p x sigma in
      if b then (Some 0, sigma1)
      else let '(r, sigma2) := findIndex_st p l' sigma1 in (option_map S r, sigma2)
  end.

Fixpoint chapter_loop_st (o : nat) (lineRx : regexp_object) (chapterLines : list str)
         (chapters : list chapter) (sigma : regs) : list chapter * regs :=
  match chapterLines with
  | [] => (chapters, sigma)
  | line :: rest =>
      let '(res, sigma1) := exec_st o lineRx line sigma in
      match res with
      | None => chapter_loop_st o lineRx rest chapters sigma1
      | Some _ =>
          let '(timestamp, title) := parseFlexibleTimestamps line in
          chapter_loop_st o lineRx rest
            (chapters ++ [{| start := timestamp; title := trim title |}]) sigma1
      end
  end.

(** [makeChapterParser] with the RegExp objects' state threaded through;
    [so] and [lo] number its start and line objects. *)
Definition makeChapterParser_st (so lo : nat) (startRx lineRx : regexp_object)
           (timestampIndex textIndex : nat) : str -> regs -> list chapter * regs :=
  let timestampIndex := timestampIndex + 1 in
  let textIndex := textIndex + 1 in
  fun description sigma =>
    let chapters := [] in
    let nonEmptyLines := skipEmptyLines description in
    let '(firstTimestamp, sigma1) := findIndex_st (test_st so startRx) nonEmptyLines sigma in
    match firstTimestamp with
    | None => (chapters, sigma1)
    | Some i => chapter_loop_st lo lineRx (skipn i nonEmptyLines) chapters sigma1
    end.

Definition lawfulParser_st :=
  makeChapterParser_st 0 1 (literal lawfulStartRx) (literal lawfulLineRx) 0 3.
Definition bracketsParser_st :=
  makeChapterParser_st 2 3 (literal bracketsStartRx) (literal bracketsLineRx) 0 3.
Definition parensParser_st :=
  makeChapterParser_st 4 5 (literal parensStartRx) (literal parensLineRx) 0 3.
Definition postfixParser_st :=
  makeChapterParser_st 6 7 (literal (addM postfixRx)) (literal postfixRx) 1 0.
Definition postfixParenParser_st :=
  makeChapterParser_st 8 9 (literal (addM postfixParenRx)) (literal postfixParenRx) 1 0.
Definition prefixParser_st :=
  makeChapterParser_st 10 11 (literal (addM prefixRx)) (literal prefixRx) 0 3.

Definition parseYouTubeChapters_st (description : str) (sigma : regs) : list chapter * regs :=
  let '(chapters, sigma) := lawfulParser_st description sigma in
  let '(chapters, sigma) :=
    if List.length chapters =? 0 then bracketsParser_st description sigma else (chapters, sigma) in
  let '(chapters, sigma) :=
    if List.length chapters =? 0 then parensParser_st description sigma else (chapters, sigma) in
  let '(chapters, sigma) :=
    if List.length chapters =? 0 then postfixParser_st description sigma else (chapters, sigma) in
  let '(chapters, sigma) :=
    if List.length chapters =? 0 then postfixParenParser_st description sigma
    else (chapters, sigma) in
  let '(chapters, sigma) :=
    if List.length chapters =? 0 then prefixParser_st description sigma else (chapters, sigma) in
  (chapters, sigma).

(** A stateful parser computes [g] and leaves every [lastIndex] as it
    found it. *)
Definition pure_run (f : str -> regs -> list chapter * regs) (g : str -> list chapter) : Prop :=
  forall d sigma, fst (f d sigma) = g d /\ forall o, snd (f d sigma) o = sigma o.

(** ** Lemmas on the factory *)

Lemma chapter_loop_eq : forall lineRx lines acc,
  chapter_loop lineRx lines acc =
  acc ++ map chapterOfLine (filter (test lineRx) lines).
Proof.
  intros lineRx lines; induction lines as [|line rest IH]; intros acc; simpl.
  - now rewrite app_nil_r.
  - unfold test; destruct (exec lineRx line) as [m|] eqn:E.
    + simpl; unfold chapterOfLine at 1.
      destruct (parseFlexibleTimestamps line) as [t ti]; simpl.
      rewrite IH, <- app_assoc; reflexivity.
    + apply IH.
Qed.

Lemma makeChapterParser_eq : forall startRx lineRx ti xi d,
  makeChapterParser startRx lineRx ti xi d =
  match findIndex (test startRx) (skipEmptyLines d) with
  | None => []
  | Some i => map chapterOfLine (filter (test lineRx) (skipn i (skipEmptyLines d)))
  end.
Proof.
  intros; unfold makeChapterParser.
  destruct (findIndex _ _); [rewrite chapter_loop_eq|]; reflexivity.
Qed.

Lemma findIndex_none : forall p l,
  forallb (fun x => negb (p x)) l = true -> findIndex p l = None.
Proof.
  intros p l; induction l as [|x l IH]; simpl; intros H; [reflexivity|].
  apply andb_prop in H as [H1 H2].
  destruct (p x); [discriminate|]; rewrite IH; auto.
Qed.

Lemma findIndex_app_some : forall p l1 l2 i,
  findIndex p l1 = Some i -> findIndex p (l1 ++ l2) = Some i /\ i < List.length l1.
Proof.
  intros p l1; induction l1 as [|x l1 IH]; simpl; intros l2 i H; [discriminate|].
  destruct (p x).
  - injection H as <-; split; [reflexivity|lia].
  - destruct (findIndex p l1) as [j|] eqn:E; [|discriminate].
    injection H as <-; destruct (IH l2 j eq_refl) as [-> Hl]; split; simpl; [reflexivity|lia].
Qed.

Lemma findIndex_app_skip : forall p l1 x l2,
  forallb (fun y => negb (p y)) l1 = true -> p x = true ->
  findIndex p (l1 ++ x :: l2) = Some (List.length l1).
Proof.
  intros p l1; induction l1 as [|y l1 IH]; simpl; intros x l2 H Hx.
  - now rewrite Hx.
  - apply andb_prop in H as [H1 H2].
    destruct (p y); [discriminate|]; rewrite (IH x l2 H2 Hx); reflexivity.
Qed.

Lemma split_lf_not_nil : forall l, split_lf l <> [].
Proof.
  intros [|a l]; simpl; [discriminate|].
  destruct (ascii_dec a LF); [discriminate|].
  destruct (split_lf l); discriminate.
Qed.

Lemma split_lf_app : forall d t,
  split_lf (d ++ LF :: t) = split_lf d ++ split_lf t.
Proof.
  induction d as [|a d IH]; intros t; simpl.
  - reflexivity.
  - rewrite IH. destruct (ascii_dec a LF); [reflexivity|].
    destruct (split_lf d) eqn:E; [now apply split_lf_not_nil in E|reflexivity].
Qed.

Lemma skipEmptyLines_app : forall d t,
  skipEmptyLines (d ++ LF :: t) = skipEmptyLines d ++ skipEmptyLines t.
Proof.
  intros; unfold skipEmptyLines; rewrite split_lf_app; apply filter_app.
Qed.

Lemma filter_all_false : forall (p : str -> bool) l,
  forallb (fun x => negb (p x)) l = true -> filter p l = [].
Proof.
  intros p l; induction l as [|x l IH]; simpl; intros H; [reflexivity|].
  apply andb_prop in H as [H1 H2]; destruct (p x); [discriminate|auto].
Qed.

(** ** The Format Cascade *)

(** C1: [parseYouTubeChapters] runs the six format parsers in the order
    Lawful, Brackets, Parens, Postfix, Postfix-Paren, Prefix and returns the
    first non-empty result; in particular, when both the Lawful and the
    Prefix parser produce chapters, the Lawful result is returned. *)
Theorem parseYouTubeChapters_cascade : forall d,
  parseYouTubeChapters d = first_nonempty (map (fun p => p d) formatParsers) /\
  (lawfulParser d <> [] -> prefixParser d <> [] ->
   parseYouTubeChapters d = lawfulParser d).
Proof.
  intros d; unfold parseYouTubeChapters, formatParsers; cbn [map].
  remember (lawfulParser d) as a; remember (bracketsParser d) as b;
  remember (parensParser d) as c; remember (postfixParser d) as e;
  remember (postfixParenParser d) as f; remember (prefixParser d) as g.
  split.
  - destruct a, b, c, e, f, g; reflexivity.
  - intros Ha _; destruct a; [congruence|reflexivity].
Qed.

Lemma parseYouTubeChapters_cascade_witness :
  let d := join_lf (["0:00 Intro"; "1:00 Next"])%string in
  (lawfulParser d <> [] /\ prefixParser d <> []) /\
  parseYouTubeChapters d = lawfulParser d.
Proof.
  intros d; split; [split; vm_compute; discriminate|].
  apply (proj2 (parseYouTubeChapters_cascade d)); vm_compute; discriminate.
Defined.

(** ** The Format Parser Factory *)

(** C3: a parser built by [makeChapterParser] returns no chapter when no
    non-empty line of the description matches its start pattern; hence
    [parseYouTubeChapters] returns the empty sequence on every description
    none of whose non-empty lines matches any of the six start patterns. *)
Theorem makeChapterParser_no_start : 
  (forall startRx lineRx ti xi d,
     forallb (fun x => negb (test startRx x)) (skipEmptyLines d) = true ->
     makeChapterParser startRx lineRx ti xi d = []) /\
  (forall d,
     forallb (fun x => negb (existsb (fun r => test r x) formatStartRxs))
             (skipEmptyLines d) = true ->
     parseYouTubeChapters d = []).
Proof.
  assert (Hf : forall startRx lineRx ti xi d,
     forallb (fun x => negb (test startRx x)) (skipEmptyLines d) = true ->
     makeChapterParser startRx lineRx ti xi d = []).
  { intros startRx lineRx ti xi d H.
    rewrite makeChapterParser_eq, findIndex_none by exact H; reflexivity. }
  split; [exact Hf|].
  intros d H.
  assert (Hr : forall r, In r formatStartRxs ->
            forallb (fun x => negb (test r x)) (skipEmptyLines d) = true).
  { intros r Hin; apply forallb_forall; intros x Hx.
    apply (proj1 (forallb_forall _ _) H) in Hx.
    destruct (test r x) eqn:E; [|reflexivity].
    assert (existsb (fun r0 => test r0 x) formatStartRxs = true)
      by (apply existsb_exists; eauto).
    rewrite H0 in Hx; discriminate. }
  unfold parseYouTubeChapters, lawfulParser, bracketsParser, parensParser,
    postfixParser, postfixParenParser, prefixParser.
  rewrite !Hf by (apply Hr; simpl; tauto); reflexivity.
Qed.

Lemma makeChapterParser_no_start_witness :
  let d := join_lf (["Hello and welcome"; ""; "No chapters in this video"])%string in
  forallb (fun x => negb (existsb (fun r => test r x) formatStartRxs))
          (skipEmptyLines d) = true /\
  parseYouTubeChapters d = [].
Proof.
  intros d; split; [vm_compute; reflexivity|].
  apply (proj2 makeChapterParser_no_start); vm_compute; reflexivity.
Defined.

(** C4: once the first line matching the start pattern is found (index
    [i] among the non-empty lines), every non-empty line from there to the
    end is tested against the line pattern; non-matching lines are skipped
    and each matching line contributes exactly one chapter, in order.  So
    appending lines none of which matches the line pattern changes
    nothing. *)
Theorem makeChapterParser_scan : forall startRx lineRx ti xi d i,
  findIndex (test startRx) (skipEmptyLines d) = Some i ->
  makeChapterParser startRx lineRx ti xi d =
    map chapterOfLine (filter (test lineRx) (skipn i (skipEmptyLines d))) /\
  (forall t,
     forallb (fun x => negb (test lineRx x)) (skipEmptyLines t) = true ->
     makeChapterParser startRx lineRx ti xi (d ++ LF :: t) =
     makeChapterParser startRx lineRx ti xi d).
Proof.
  intros startRx lineRx ti xi d i H.
  rewrite makeChapterParser_eq, H; split; [reflexivity|].
  intros t Ht; rewrite makeChapterParser_eq, skipEmptyLines_app.
  destruct (findIndex_app_some _ _ (skipEmptyLines t) _ H) as [-> Hlt].
  rewrite skipn_app, filter_app.
  rewrite (filter_all_false _ (skipn _ (skipEmptyLines t))).
  - now rewrite app_nil_r.
  - replace (i - List.length (skipEmptyLines d)) with 0 by lia; exact Ht.
Qed.

Lemma makeChapterParser_scan_witness :
  let d := join_lf (["Intro 0:00"; "Middle Bit 1:30"])%string in
  let t := s2l "Thanks for watching, see you next time" in
  findIndex (test (addM postfixRx)) (skipEmptyLines d) = Some 0 /\
  postfixParser (d ++ LF :: t) = postfixParser d.
Proof.
  intros d t; split; [vm_compute; reflexivity|].
  apply (proj2 (makeChapterParser_scan (addM postfixRx) postfixRx 1 0 d 0
                  ltac:(vm_compute; reflexivity))).
  vm_compute; reflexivity.
Defined.

(** C7 (as the code has it): the Brackets start pattern is tested on every
    non-empty line, not only on the first.  The parser returns no chapter
    when no non-empty line starts with [[0:00]] or [[00:00]]; otherwise it
    parses from the first such line on, keeping every later line that
    matches the Brackets line pattern. *)
Theorem bracketsParser_start_any_line : forall d,
  (forallb (fun x => negb (test bracketsStartRx x)) (skipEmptyLines d) = true ->
   bracketsParser d = []) /\
  (forall pre l post,
     skipEmptyLines d = pre ++ l :: post ->
     forallb (fun x => negb (test bracketsStartRx x)) pre = true ->
     test bracketsStartRx l = true ->
     bracketsParser d = map chapterOfLine (filter (test bracketsLineRx) (l :: post))).
Proof.
  intros d; unfold bracketsParser; split.
  - intros H; rewrite makeChapterParser_eq, findIndex_none by exact H; reflexivity.
  - intros pre l post Hd Hpre Hl.
    rewrite makeChapterParser_eq, Hd, findIndex_app_skip by assumption.
    rewrite skipn_app, skipn_all, Nat.sub_diag; reflexivity.
Qed.

Lemma bracketsParser_start_any_line_witness :
  let d := join_lf (["Chapters:"; "[00:00] Start"; "[01:30] Middle"])%string in
  skipEmptyLines d = [s2l "Chapters:"] ++ s2l "[00:00] Start" :: [s2l "[01:30] Middle"] /\
  forallb (fun x => negb (test bracketsStartRx x)) [s2l "Chapters:"] = true /\
  test bracketsStartRx (s2l "[00:00] Start") = true /\
  bracketsParser d =
    map chapterOfLine (filter (test bracketsLineRx)
                              (s2l "[00:00] Start" :: [s2l "[01:30] Middle"])).
Proof.
  intros d; split; [vm_compute; reflexivity|]; split; [vm_compute; reflexivity|].
  split; [vm_compute; reflexivity|].
  apply (proj2 (bracketsParser_start_any_line d) [s2l "Chapters:"]);
    vm_compute; reflexivity.
Defined.

(** C7 fails as stated: the first non-empty line ["Intro"] does not match
    the Brackets start pattern, yet a later line does and the parser
    returns two chapters. *)
Lemma bracketsParser_first_line_counterexample :
  ~ (forall d first rest,
       skipEmptyLines d = first :: rest ->
       test bracketsStartRx first = false -> bracketsParser d = []).
Proof.
  intros H.
  specialize (H (join_lf (["Intro"; "[00:00] Start"; "[01:30] Middle"])%string)
                (s2l "Intro") [s2l "[00:00] Start"; s2l "[01:30] Middle"]
                ltac:(vm_compute; reflexivity) ltac:(vm_compute; reflexivity)).
  vm_compute in H; discriminate H.
Qed.

(** ** Purity *)

Lemma exec_obj_literal : forall r input li, exec_obj (literal r) input li = (exec r input, li).
Proof.
  intros r input li; unfold exec_obj, exec; cbn [global sticky literal orb pattern].
  destruct (List.length input <? 0) eqn:E; [apply Nat.ltb_lt in E; lia|].
  rewrite Nat.sub_0_r.
  destruct (first_some _ (seq 0 (S (List.length input)))) as [[[s e] cap]|]; reflexivity.
Qed.

Lemma upd_same : forall sigma o o', upd sigma o (sigma o) o' = sigma o'.
Proof.
  intros sigma o o'; unfold upd.
  destruct (o' =? o) eqn:E; [apply Nat.eqb_eq in E; subst; reflexivity|reflexivity].
Qed.

Lemma exec_st_literal : forall o r line sigma,
  exec_st o (literal r) line sigma = (exec r line, upd sigma o (sigma o)).
Proof. intros; unfold exec_st; rewrite exec_obj_literal; reflexivity. Qed.

Lemma test_st_literal : forall o r line sigma,
  test_st o (literal r) line sigma = (test r line, upd sigma o (sigma o)).
Proof.
  intros; unfold test_st, test; rewrite exec_st_literal.
  destruct (exec r line); reflexivity.
Qed.

Lemma findIndex_st_literal : forall o r l sigma,
  fst (findIndex_st (test_st o (literal r)) l sigma) = findIndex (test r) l /\
  forall o', snd (findIndex_st (test_st o (literal r)) l sigma) o' = sigma o'.
Proof.
  intros o r l; induction l as [|x l IH]; intros sigma; [split; reflexivity|].
  cbn [findIndex_st findIndex]; rewrite test_st_literal; cbv beta iota.
  destruct (test r x).
  - split; [reflexivity|apply upd_same].
  - destruct (IH (upd sigma o (sigma o))) as [H1 H2].
    revert H1 H2.
    destruct (findIndex_st (test_st o (literal r)) l (upd sigma o (sigma o))) as [r' s2].
    intros H1 H2; cbn [fst snd] in *; split; [congruence|intros o'; rewrite H2; apply upd_same].
Qed.

Lemma chapter_loop_st_literal : forall o r lines chapters sigma,
  fst (chapter_loop_st o (literal r) lines chapters sigma) = chapter_loop r lines chapters /\
  forall o', snd (chapter_loop_st o (literal r) lines chapters sigma) o' = sigma o'.
Proof.
  intros o r lines; induction lines as [|x l IH]; intros chapters sigma; [split; reflexivity|].
  cbn [chapter_loop_st chapter_loop]; rewrite exec_st_literal; cbv beta iota.
  destruct (exec r x) as [m|]; [destruct (parseFlexibleTimestamps x) as [t ti]|];
    match goal with
    | |- context [chapter_loop_st o (literal r) l ?c ?s] =>
        destruct (IH c s) as [H1 H2]
    end;
    (split; [exact H1|intros o'; rewrite H2; apply upd_same]).
Qed.

Lemma makeChapterParser_st_pure : forall so lo s r ti xi,
  pure_run (makeChapterParser_st so lo (literal s) (literal r) ti xi) (makeChapterParser s r ti xi).
Proof.
  intros so lo s r ti xi d sigma; unfold makeChapterParser_st, makeChapterParser; cbv beta zeta.
  destruct (findIndex_st_literal so s (skipEmptyLines d) sigma) as [H1 H2].
  revert H1 H2.
  destruct (findIndex_st (test_st so (literal s)) (skipEmptyLines d) sigma) as [fi sigma1].
  intros H1 H2; cbn [fst snd] in H1, H2; rewrite <- H1.
  destruct fi as [i|]; [|split; [reflexivity|exact H2]].
  destruct (chapter_loop_st_literal lo r (skipn i (skipEmptyLines d)) [] sigma1) as [H3 H4].
  split; [exact H3|intros o; rewrite H4; apply H2].
Qed.

Lemma pure_if : forall f g d c sigma0 sigma c' sigma',
  pure_run f g -> (forall o, sigma o = sigma0 o) ->
  (if List.length c =? 0 then f d sigma else (c, sigma)) = (c', sigma') ->
  c' = (if List.length c =? 0 then g d else c) /\ forall o, sigma' o = sigma0 o.
Proof.
  intros f g d c sigma0 sigma c' sigma' Hf Hs E; destruct (List.length c =? 0).
  - destruct (Hf d sigma) as [H1 H2]; rewrite E in H1, H2.
    split; [exact H1|intros o; rewrite H2; apply Hs].
  - injection E as <- <-; split; [reflexivity|exact Hs].
Qed.

Ltac pure_next Hf :=
  match goal with
  | |- context [if List.length ?c =? 0 then ?f ?d ?s else (?c, ?s)] =>
      match goal with
      | HS : forall o, s o = _ |- _ =>
          let E' := fresh "E" in let HS' := fresh "HS" in
          let c' := fresh "c" in let s' := fresh "s" in let EQ := fresh "EQ" in
          destruct (if List.length c =? 0 then f d s else (c, s)) as [c' s'] eqn:EQ;
          destruct (pure_if f _ d c _ s c' s' Hf HS EQ) as [E' HS'];
          subst c'; cbv beta iota
      end
  end.

Lemma parseYouTubeChapters_st_pure : pure_run parseYouTubeChapters_st parseYouTubeChapters.
Proof.
  intros d sigma; unfold parseYouTubeChapters_st, parseYouTubeChapters.
  destruct (makeChapterParser_st_pure 0 1 lawfulStartRx lawfulLineRx 0 3 d sigma) as [E1 S1].
  change (makeChapterParser_st 0 1 (literal lawfulStartRx) (literal lawfulLineRx) 0 3)
    with lawfulParser_st in E1, S1.
  revert E1 S1; destruct (lawfulParser_st d sigma) as [c1 s1]; intros E1 S1.
  cbn [fst snd] in E1, S1; subst c1.
  cbv beta iota.
  pure_next (makeChapterParser_st_pure 2 3 bracketsStartRx bracketsLineRx 0 3).
  pure_next (makeChapterParser_st_pure 4 5 parensStartRx parensLineRx 0 3).
  pure_next (makeChapterParser_st_pure 6 7 (addM postfixRx) postfixRx 1 0).
  pure_next (makeChapterParser_st_pure 8 9 (addM postfixParenRx) postfixParenRx 1 0).
  pure_next (makeChapterParser_st_pure 10 11 (addM prefixRx) prefixRx 0 3).
  split; [reflexivity|assumption].
Qed.

(** With the [g] flag the same object would carry state from one call to
    the next: the result of [exec] would depend on [lastIndex]. *)
Lemma global_exec_reads_lastIndex :
  fst (exec_obj {| pattern := lawfulLineRx; global := true; sticky := false |}
                (s2l "0:00 Intro") 0) <> None /\
  fst (exec_obj {| pattern := lawfulLineRx; global := true; sticky := false |}
                (s2l "0:00 Intro") 1) = None.
Proof. split; [vm_compute; discriminate|vm_compute; reflexivity]. Qed.

(** C8: [parseYouTubeChapters] depends on its input alone.  With the
    [lastIndex] of each of the module's twelve RegExp objects threaded
    through every [exec] and [test] of a call, as RegExpBuiltinExec reads
    and writes it, the call returns the chapters of the stateless reading
    whatever the state it starts from, and leaves every [lastIndex] as it
    found it (none of the objects has [g] or [y]); so two calls on the same
    input, in any states, one after the other included, give the same
    chapters. *)
Theorem parseYouTubeChapters_deterministic :
  (forall d sigma, fst (parseYouTubeChapters_st d sigma) = parseYouTubeChapters d /\
                   forall o, snd (parseYouTubeChapters_st d sigma) o = sigma o) /\
  (forall d sigma1 sigma2,
     fst (parseYouTubeChapters_st d sigma1) = fst (parseYouTubeChapters_st d sigma2)) /\
  (forall d sigma,
     fst (parseYouTubeChapters_st d (snd (parseYouTubeChapters_st d sigma))) =
     fst (parseYouTubeChapters_st d sigma)).
Proof.
  split; [exact parseYouTubeChapters_st_pure|split].
  - intros d sigma1 sigma2.
    rewrite (proj1 (parseYouTubeChapters_st_pure d sigma1)),
            (proj1 (parseYouTubeChapters_st_pure d sigma2)); reflexivity.
  - intros d sigma.
    rewrite (proj1 (parseYouTubeChapters_st_pure d _)),
            (proj1 (parseYouTubeChapters_st_pure d sigma)); reflexivity.
Qed.

(** ** The Timestamp Extractor *)

(** C5: on a line where none of the three timestamp shapes occurs, the
    extractor returns timestamp 0 and the whole line as the title. *)
Theorem parseFlexibleTimestamps_no_timestamp : forall line,
  exec timestampRegex line = None -> parseFlexibleTimestamps line = (Num 0, line).
Proof. intros line H; unfold parseFlexibleTimestamps; rewrite H; reflexivity. Qed.

Lemma parseFlexibleTimestamps_no_timestamp_witness :
  exec timestampRegex (s2l "Thanks for watching [bonus] (part 2)") = None /\
  parseFlexibleTimestamps (s2l "Thanks for watching [bonus] (part 2)") =
    (Num 0, s2l "Thanks for watching [bonus] (part 2)").
Proof.
  split; [vm_compute; reflexivity|].
  apply parseFlexibleTimestamps_no_timestamp; vm_compute; reflexivity.
Defined.

(** C9: values are taken from the first timestamp-shaped substring of the
    line, wherever it is.  The Postfix pattern accepts
    ["1:00 to 2:00 recap 5:00"] with title group ["1:00 to 2:00 recap"] and
    line-final timestamp [5:00], yet the chapter starts at 60 (the leading
    [1:00]) and only that [1:00] is removed from the title. *)
Theorem postfix_value_from_first_timestamp :
  let line := s2l "1:00 to 2:00 recap 5:00" in
  (match exec postfixRx line with
   | Some (_, _, cap) =>
       group line cap 1 = Some (s2l "1:00 to 2:00 recap") /\
       group line cap 3 = Some (s2l "5") /\ group line cap 4 = Some (s2l "00")
   | None => False
   end) /\
  postfixParser line = [ch 60 "to 2:00 recap 5:00"] /\
  parseYouTubeChapters line = [ch 60 "to 2:00 recap 5:00"].
Proof. vm_compute; repeat split; reflexivity. Qed.

(** ** Line endings *)

(** C10 fails as stated for its example: the last line of a CRLF
    description carries no CR, so ["Intro 0:00\r\nMiddle Bit 1:30"] still
    yields the chapter of its last line. *)
Lemma crlf_example_counterexample :
  parseYouTubeChapters (join_lf (["Intro 0:00"; "Middle Bit 1:30"])%string) =
    [ch 0 "Intro"; ch 90 "Middle Bit"] /\
  parseYouTubeChapters (join_crlf (["Intro 0:00"; "Middle Bit 1:30"])%string) =
    [ch 90 "Middle Bit"].
Proof. split; vm_compute; reflexivity. Qed.

(** C10 (amended): splitting on LF alone leaves a CR at the end of every
    line but the last, where the end-anchored line patterns fail; a
    description whose last line is not a chapter line parses to chapters
    with LF endings and to nothing with CRLF endings. *)
Theorem crlf_loses_chapters :
  parseYouTubeChapters
    (join_lf (["Intro 0:00"; "Middle Bit 1:30"; "Thanks for watching"])%string) =
    [ch 0 "Intro"; ch 90 "Middle Bit"] /\
  parseYouTubeChapters
    (join_crlf (["Intro 0:00"; "Middle Bit 1:30"; "Thanks for watching"])%string) = [].
Proof. split; vm_compute; reflexivity. Qed.

(** ** Lemmas on the matcher *)

Lemma first_some_none {A B : Type} (f : A -> option B) l :
  (forall x, In x l -> f x = None) -> first_some f l = None.
Proof.
  induction l as [|x l IH]; simpl; intros H; [reflexivity|].
  rewrite H by auto; apply IH; auto.
Qed.

Lemma first_some_app {A B : Type} (f : A -> option B) l1 l2 :
  first_some f (l1 ++ l2) =
  match first_some f l1 with Some y => Some y | None => first_some f l2 end.
Proof. induction l1 as [|x l1 IH]; simpl; [reflexivity|]; destruct (f x); auto. Qed.

Lemma run_len_nth : forall c l j,
  j < run_len c l -> exists b, nth_error l j = Some b /\ class_test c b = true.
Proof.
  intros c l; induction l as [|a l IH]; simpl; intros j H; [lia|].
  destruct (class_test c a) eqn:E; [|lia].
  destruct j as [|j]; simpl; [eauto|apply IH; lia].
Qed.

Lemma run_len_app : forall c l rest,
  forallb (class_test c) l = true -> starts_outside c rest = true ->
  run_len c (l ++ rest) = List.length l.
Proof.
  intros c l rest; induction l as [|a l IH]; simpl; intros Hl Hr.
  - destruct rest as [|b rest]; simpl in *; [reflexivity|].
    destruct (class_test c b); [discriminate|reflexivity].
  - apply andb_prop in Hl as [Ha Hl]; rewrite Ha, IH; auto.
Qed.

Lemma run_len_skip : forall c l, run_len c (skipn (run_len c l) l) = 0.
Proof.
  intros c l; induction l as [|a l IH]; simpl; [reflexivity|].
  destruct (class_test c a) eqn:E; simpl; [exact IH|now rewrite E].
Qed.

Lemma firstn_prefix : forall (l1 l2 : str), firstn (List.length l1) (l1 ++ l2) = l1.
Proof. induction l1 as [|a l1 IH]; intros l2; simpl; [reflexivity|now rewrite IH]. Qed.

Lemma take_digits_all : forall l, forallb is_digit l = true -> take_digits l = l.
Proof.
  induction l as [|a l IH]; simpl; intros H; [reflexivity|].
  apply andb_prop in H as [Ha H]; rewrite Ha, IH; auto.
Qed.

Section MatcherFacts.
Variable inp : str.
Variable ml : bool.

Lemma mt_emp : forall i cap k, mt inp ml Emp i cap k = k i cap.
Proof. reflexivity. Qed.

Lemma mt_alt : forall r1 r2 i cap k,
  mt inp ml (Alt r1 r2) i cap k =
  match mt inp ml r1 i cap k with Some x => Some x | None => mt inp ml r2 i cap k end.
Proof. reflexivity. Qed.

Lemma mt_cat_opt : forall r1 r2 i cap k,
  mt inp ml (Cat (Opt r1) r2) i cap k =
  match mt inp ml r1 i cap (fun i' cap' => mt inp ml r2 i' cap' k) with
  | Some x => Some x
  | None => mt inp ml r2 i cap k
  end.
Proof. reflexivity. Qed.

Lemma mt_cat_bol0 : forall r cap k, mt inp ml (Cat Bol r) 0 cap k = mt inp ml r 0 cap k.
Proof. reflexivity. Qed.

Lemma mt_chr_ok : forall a r i cap k,
  nth_error inp i = Some a -> mt inp ml (Cat (Chr a) r) i cap k = mt inp ml r (S i) cap k.
Proof.
  intros a r i cap k H; simpl; rewrite H.
  destruct (ascii_dec a a); [reflexivity|congruence].
Qed.

Lemma mt_chr_fail : forall a r i cap k,
  (forall b, nth_error inp i = Some b -> a <> b) ->
  mt inp ml (Cat (Chr a) r) i cap k = None.
Proof.
  intros a r i cap k H; simpl.
  destruct (nth_error inp i) as [b|] eqn:E; [|reflexivity].
  destruct (ascii_dec a b); [exfalso; exact (H b eq_refl e)|reflexivity].
Qed.

Lemma mt_rep_greedy : forall c mn i cap k,
  mn <= run_len c (skipn i inp) ->
  (forall j, mn <= j < run_len c (skipn i inp) -> k (i + j) cap = None) ->
  mt inp ml (Rep c mn true) i cap k = k (i + run_len c (skipn i inp)) cap.
Proof.
  intros c mn i cap k Hmn Hj.
  change (mt inp ml (Rep c mn true) i cap k) with
    (first_some (fun j => k (i + j) cap) (rev (seq mn (S (run_len c (skipn i inp)) - mn)))).
  set (n := run_len c (skipn i inp)) in *.
  replace (S n - mn) with (S (n - mn)) by lia.
  rewrite seq_S, rev_app_distr; simpl.
  replace (mn + (n - mn)) with n by lia.
  destruct (k (i + n) cap) eqn:E; [reflexivity|].
  apply first_some_none; intros x Hx.
  apply in_rev, in_seq in Hx; apply Hj; lia.
Qed.

Lemma mt_rep_greedy_some : forall c mn i cap k x,
  mn <= run_len c (skipn i inp) ->
  k (i + run_len c (skipn i inp)) cap = Some x ->
  mt inp ml (Rep c mn true) i cap k = Some x.
Proof.
  intros c mn i cap k x Hmn Hk.
  change (mt inp ml (Rep c mn true) i cap k) with
    (first_some (fun j => k (i + j) cap) (rev (seq mn (S (run_len c (skipn i inp)) - mn)))).
  set (n := run_len c (skipn i inp)) in *.
  replace (S n - mn) with (S (n - mn)) by lia.
  rewrite seq_S, rev_app_distr; simpl.
  replace (mn + (n - mn)) with n by lia.
  now rewrite Hk.
Qed.

Lemma chr_inside_run : forall c a r i j cap k,
  j < run_len c (skipn i inp) -> class_test c a = false ->
  mt inp ml (Cat (Chr a) r) (i + j) cap k = None.
Proof.
  intros c a r i j cap k Hj Ha.
  destruct (run_len_nth _ _ _ Hj) as [b [Hb Hcb]].
  rewrite nth_error_skipn in Hb.
  apply mt_chr_fail; intros b' Hb' <-; congruence.
Qed.

(** [(\d+)] followed by a literal outside the class: the repetition takes
    the whole run, since every shorter run is followed by a class
    character. *)
Lemma mt_grp_rep1_chr : forall n c a r i len cap k,
  run_len c (skipn i inp) = len -> 1 <= len -> class_test c a = false ->
  mt inp ml (Cat (Grp n (Rep c 1 true)) (Cat (Chr a) r)) i cap k =
  mt inp ml (Cat (Chr a) r) (i + len) (set_capture n i (i + len) cap) k.
Proof.
  intros n c a r i len cap k Hlen H1 Ha.
  change (mt inp ml (Cat (Grp n (Rep c 1 true)) (Cat (Chr a) r)) i cap k) with
    (mt inp ml (Rep c 1 true) i cap
        (fun i' cap' => mt inp ml (Cat (Chr a) r) i' (set_capture n i i' cap') k)).
  rewrite mt_rep_greedy; rewrite ?Hlen; [reflexivity|lia|].
  intros j Hj; cbv beta; apply (chr_inside_run c); [lia|exact Ha].
Qed.

Lemma mt_rep1_chr : forall c a r i len cap k,
  run_len c (skipn i inp) = len -> 1 <= len -> class_test c a = false ->
  mt inp ml (Cat (Rep c 1 true) (Cat (Chr a) r)) i cap k =
  mt inp ml (Cat (Chr a) r) (i + len) cap k.
Proof.
  intros c a r i len cap k Hlen H1 Ha.
  change (mt inp ml (Cat (Rep c 1 true) (Cat (Chr a) r)) i cap k) with
    (mt inp ml (Rep c 1 true) i cap (fun i' cap' => mt inp ml (Cat (Chr a) r) i' cap' k)).
  rewrite mt_rep_greedy; rewrite ?Hlen; [reflexivity|lia|].
  intros j Hj; cbv beta; apply (chr_inside_run c); [lia|exact Ha].
Qed.

(** A last [(\d+)] hands its whole run to a continuation that succeeds. *)
Lemma mt_grp_rep1_last : forall n c i len cap k x,
  run_len c (skipn i inp) = len -> 1 <= len ->
  k (i + len) (set_capture n i (i + len) cap) = Some x ->
  mt inp ml (Cat (Grp n (Rep c 1 true)) Emp) i cap k = Some x.
Proof.
  intros n c i len cap k x Hlen H1 Hk.
  change (mt inp ml (Cat (Grp n (Rep c 1 true)) Emp) i cap k) with
    (mt inp ml (Rep c 1 true) i cap (fun i' cap' => k i' (set_capture n i i' cap'))).
  apply mt_rep_greedy_some; rewrite Hlen; [lia|exact Hk].
Qed.

Lemma mt_grp_rep1_none : forall n c r i cap k,
  run_len c (skipn i inp) = 0 -> mt inp ml (Cat (Grp n (Rep c 1 true)) r) i cap k = None.
Proof.
  intros n c r i cap k H.
  change (mt inp ml (Cat (Grp n (Rep c 1 true)) r) i cap k) with
    (first_some (fun j => (fun i' cap' => mt inp ml r i' (set_capture n i i' cap') k) (i + j) cap)
                (rev (seq 1 (S (run_len c (skipn i inp)) - 1)))).
  rewrite H; reflexivity.
Qed.

End MatcherFacts.

Lemma exec_at : forall r inp i e cap,
  i <= List.length inp ->
  (forall p, p < i -> mt inp (multiline r) (rx r) p no_captures final_k = None) ->
  mt inp (multiline r) (rx r) i no_captures final_k = Some (e, cap) ->
  exec r inp = Some (i, e, cap).
Proof.
  intros r inp i e cap Hi Hp Hm; unfold exec.
  replace (S (List.length inp)) with (i + S (List.length inp - i)) by lia.
  rewrite seq_app, first_some_app, first_some_none; simpl.
  - now rewrite Hm.
  - intros x Hx; apply in_seq in Hx; rewrite Hp by lia; reflexivity.
Qed.

(** ** The timestamp pattern on concrete line shapes *)

Lemma skipn_app_len : forall (l l1 l2 : str) i,
  skipn i l = l1 ++ l2 -> skipn (i + List.length l1) l = l2.
Proof.
  intros l l1 l2 i H.
  rewrite Nat.add_comm, <- skipn_skipn, H, skipn_app, skipn_all, Nat.sub_diag; reflexivity.
Qed.

Lemma skipn_cons_step : forall (l l2 : str) a i,
  skipn i l = a :: l2 -> skipn (S i) l = l2 /\ nth_error l i = Some a.
Proof.
  intros l l2 a i H; split.
  - replace (S i) with (1 + i) by lia; rewrite <- skipn_skipn, H; reflexivity.
  - replace i with (i + 0) by lia; rewrite <- nth_error_skipn, H; reflexivity.
Qed.

Lemma digit_not_open : forall b, is_digit b = true ->
  "["%char <> b /\ "("%char <> b.
Proof. intros b Hb; split; intros E; subst b; discriminate Hb. Qed.

(** Where no timestamp shape starts, the timestamp pattern fails. *)
Lemma ts_fail_at : forall line p b,
  nth_error line p = Some b -> opens_no_timestamp b = true ->
  mt line false (rx timestampRegex) p no_captures final_k = None.
Proof.
  intros line p b Hb Hopen.
  unfold opens_no_timestamp in Hopen.
  apply andb_prop in Hopen as [Hopen Hparen]; apply andb_prop in Hopen as [Hd Hbr].
  assert (Hrun : run_len CDigit (skipn p line) = 0).
  { replace p with (p + 0) in Hb by lia; rewrite <- nth_error_skipn in Hb.
    destruct (skipn p line) as [|b' l]; [reflexivity|].
    simpl in Hb; injection Hb as ->; simpl; destruct (is_digit b); [discriminate|reflexivity]. }
  unfold timestampRegex; cbn [rx multiline hms cats fold_right]; unfold digits1, colon, spaces0.
  rewrite mt_alt, mt_chr_fail.
  2:{ intros b' Hb' E; subst b'; rewrite Hb in Hb'; injection Hb' as ->; discriminate Hbr. }
  cbv beta iota; rewrite mt_alt, mt_chr_fail.
  2:{ intros b' Hb' E; subst b'; rewrite Hb in Hb'; injection Hb' as ->; discriminate Hparen. }
  cbv beta iota; rewrite mt_cat_opt. rewrite mt_grp_rep1_none by exact Hrun.
  cbv beta iota; apply mt_grp_rep1_none; exact Hrun.
Qed.

(** [M:S] at position [i]: the optional hours group is tried first and
    fails, so minutes and seconds land in groups 8 and 9. *)
Lemma ts_bare_two : forall line i dm ds rest,
  skipn i line = dm ++ ":"%char :: ds ++ rest ->
  dm <> [] -> ds <> [] ->
  forallb is_digit dm = true -> forallb is_digit ds = true ->
  starts_outside CDigit rest = true -> hd_error rest <> Some ":"%char ->
  mt line false (rx timestampRegex) i no_captures final_k =
  Some (S (i + List.length dm) + List.length ds,
        set_capture 9 (S (i + List.length dm)) (S (i + List.length dm) + List.length ds)
          (set_capture 8 i (i + List.length dm) no_captures)).
Proof.
  intros line i dm ds rest Hl Hdm Hds Ddm Dds Hrest Hcolon.
  destruct dm as [|d0 dm']; [congruence|].
  assert (Hd0 : nth_error line i = Some d0 /\ is_digit d0 = true).
  { replace i with (i + 0) by lia; rewrite <- nth_error_skipn, Hl.
    simpl in Ddm; apply andb_prop in Ddm as [Dd0 _]; auto. }
  destruct Hd0 as [Hd0 Dd0]; destruct (digit_not_open d0 Dd0) as [Nbr Npar].
  set (dm := d0 :: dm') in *.
  pose proof (skipn_app_len _ _ _ _ Hl) as Hc.
  destruct (skipn_cons_step _ _ _ _ Hc) as [Hds_at Hcolon_at].
  assert (Hrun_m : run_len CDigit (skipn i line) = List.length dm)
    by (rewrite Hl; apply run_len_app; auto).
  assert (Hrun_s : run_len CDigit (skipn (S (i + List.length dm)) line) = List.length ds)
    by (rewrite Hds_at; apply run_len_app; auto).
  assert (Hafter : forall b, nth_error line (S (i + List.length dm) + List.length ds) = Some b ->
                    ":"%char <> b).
  { intros b Hb E; subst b; rewrite <- nth_error_skipn, Hds_at, nth_error_app2, Nat.sub_diag in Hb
      by lia.
    destruct rest; simpl in Hb, Hcolon; [discriminate|congruence]. }
  unfold timestampRegex; cbn [rx multiline hms cats fold_right]; unfold digits1, colon, spaces0.
  rewrite mt_alt, mt_chr_fail by (intros b Hb; rewrite Hd0 in Hb; congruence).
  cbv beta iota; rewrite mt_alt, mt_chr_fail by (intros b Hb; rewrite Hd0 in Hb; congruence).
  cbv beta iota; rewrite mt_cat_opt.
  rewrite (mt_grp_rep1_chr _ _ _ _ _ _ _ (List.length dm)); auto; [|simpl; lia].
  rewrite mt_chr_ok, mt_emp by exact Hcolon_at; cbv beta.
  rewrite (mt_grp_rep1_chr _ _ _ _ _ _ _ (List.length ds)); auto;
    [|destruct ds; simpl; [congruence|lia]].
  rewrite mt_chr_fail by exact Hafter; cbv beta iota.
  rewrite (mt_grp_rep1_chr _ _ _ _ _ _ _ (List.length dm)); auto; [|simpl; lia].
  rewrite mt_chr_ok by exact Hcolon_at.
  apply (mt_grp_rep1_last _ _ _ _ _ (List.length ds)); auto.
  destruct ds; simpl; [congruence|lia].
Qed.

(** [H:M:S] at position [i]: the optional hours group succeeds. *)
Lemma ts_bare_three : forall line i dh dm ds rest,
  skipn i line = dh ++ ":"%char :: dm ++ ":"%char :: ds ++ rest ->
  dh <> [] -> dm <> [] -> ds <> [] ->
  forallb is_digit dh = true -> forallb is_digit dm = true -> forallb is_digit ds = true ->
  starts_outside CDigit rest = true ->
  let p1 := S (i + List.length dh) in
  let p2 := S (p1 + List.length dm) in
  mt line false (rx timestampRegex) i no_captures final_k =
  Some (p2 + List.length ds,
        set_capture 9 p2 (p2 + List.length ds)
          (set_capture 8 p1 (p1 + List.length dm)
            (set_capture 7 i (i + List.length dh) no_captures))).
Proof.
  intros line i dh dm ds rest Hl Hdh Hdm Hds Ddh Ddm Dds Hrest p1 p2.
  destruct dh as [|d0 dh']; [congruence|].
  assert (Hd0 : nth_error line i = Some d0 /\ is_digit d0 = true).
  { replace i with (i + 0) by lia; rewrite <- nth_error_skipn, Hl.
    simpl in Ddh; apply andb_prop in Ddh as [Dd0 _]; auto. }
  destruct Hd0 as [Hd0 Dd0].
  set (dh := d0 :: dh') in *.
  pose proof (skipn_app_len _ _ _ _ Hl) as Hc1.
  destruct (skipn_cons_step _ _ _ _ Hc1) as [Hm_at Hcolon1].
  pose proof (skipn_app_len _ _ _ _ Hm_at) as Hc2.
  destruct (skipn_cons_step _ _ _ _ Hc2) as [Hs_at Hcolon2].
  change (skipn p1 line = dm ++ ":"%char :: ds ++ rest) in Hm_at.
  change (nth_error line (p1 + List.length dm) = Some ":"%char) in Hcolon2.
  change (skipn p2 line = ds ++ rest) in Hs_at.
  assert (Hrun_h : run_len CDigit (skipn i line) = List.length dh)
    by (rewrite Hl; apply run_len_app; auto).
  assert (Hrun_m : run_len CDigit (skipn p1 line) = List.length dm)
    by (rewrite Hm_at; apply run_len_app; auto).
  assert (Hrun_s : run_len CDigit (skipn p2 line) = List.length ds)
    by (rewrite Hs_at; apply run_len_app; auto).
  assert (Lm : 1 <= List.length dm) by (destruct dm; simpl; [congruence|lia]).
  assert (Ls : 1 <= List.length ds) by (destruct ds; simpl; [congruence|lia]).
  unfold timestampRegex; cbn [rx multiline hms cats fold_right]; unfold digits1, colon, spaces0.
  rewrite mt_alt, mt_chr_fail
    by (intros b Hb E; subst b; rewrite Hd0 in Hb; injection Hb as Hb; rewrite Hb in Dd0;
        discriminate Dd0).
  cbv beta iota; rewrite mt_alt, mt_chr_fail
    by (intros b Hb E; subst b; rewrite Hd0 in Hb; injection Hb as Hb; rewrite Hb in Dd0;
        discriminate Dd0).
  cbv beta iota; rewrite mt_cat_opt.
  rewrite (mt_grp_rep1_chr _ _ _ _ _ _ _ (List.length dh)); auto; [|simpl; lia].
  rewrite mt_chr_ok, mt_emp by exact Hcolon1; cbv beta; fold p1.
  rewrite (mt_grp_rep1_chr _ _ _ _ _ _ _ (List.length dm)); auto.
  rewrite mt_chr_ok by exact Hcolon2; fold p2.
  erewrite (mt_grp_rep1_last _ _ _ _ _ (List.length ds)); [reflexivity|exact Hrun_s|exact Ls|].
  reflexivity.
Qed.

Lemma ts_exec_after_prefix : forall pre rest e cap,
  forallb opens_no_timestamp pre = true ->
  mt (pre ++ rest) false (rx timestampRegex) (List.length pre) no_captures final_k =
    Some (e, cap) ->
  exec timestampRegex (pre ++ rest) = Some (List.length pre, e, cap).
Proof.
  intros pre rest e cap Hpre Hm.
  apply exec_at; [rewrite length_app; lia| |exact Hm].
  intros p Hp.
  destruct (nth_error pre p) as [b|] eqn:Hb;
    [|apply nth_error_None in Hb; lia].
  apply (ts_fail_at _ _ b).
  - rewrite nth_error_app1 by exact Hp; exact Hb.
  - apply (proj1 (forallb_forall _ _) Hpre), nth_error_In with p, Hb.
Qed.

Lemma skipn_prefix : forall (pre l : str), skipn (List.length pre) (pre ++ l) = l.
Proof. intros; rewrite skipn_app, skipn_all, Nat.sub_diag; reflexivity. Qed.

(** ** Numbers: exactness below [2^53] and signs *)

Lemma decimal_value_acc_nonneg : forall l acc, (0 <= acc)%Z ->
  (0 <= fold_left (fun acc a => (acc * 10 + digit_value a)%Z) l acc)%Z.
Proof.
  induction l as [|a l IH]; intros acc H; simpl; [exact H|].
  apply IH; unfold digit_value; lia.
Qed.

Lemma decimal_value_nonneg : forall l, (0 <= decimal_value l)%Z.
Proof. intros l; apply decimal_value_acc_nonneg; lia. Qed.

Lemma round_double_exact : forall z, (0 <= z < 2 ^ 53)%Z -> round_double z = Num z.
Proof. intros z Hz; unfold round_double; rewrite (proj2 (Z.ltb_lt _ _)) by lia; reflexivity. Qed.

Lemma round_double_nonneg : forall z, (0 <= z)%Z -> nonneg_number (round_double z).
Proof.
  intros z Hz; unfold round_double.
  destruct (z <? 2 ^ 53)%Z; [exact Hz|].
  assert (Hq : (0 <= Z.shiftr z (Z.log2 z - 52))%Z) by (apply Z.shiftr_nonneg; exact Hz).
  cbv zeta.
  match goal with
  | |- nonneg_number (if ?t then _ else Num (Z.shiftl (if ?b then _ else _) _)) =>
      destruct t; [exact I|]; destruct b; cbn [nonneg_number]; apply Z.shiftl_nonneg; lia
  end.
Qed.

Lemma num_mul_num : forall x y, num_mul (Num x) (Num y) = round_double (x * y).
Proof. intros [|x|x] y; reflexivity. Qed.

Lemma num_add_num : forall x y, num_add (Num x) (Num y) = round_double (x + y).
Proof. reflexivity. Qed.

Lemma num_mul_nonneg : forall a y,
  nonneg_number a -> (0 < y)%Z -> nonneg_number (num_mul a (Num y)).
Proof.
  intros [x| |] y Ha Hy.
  - rewrite num_mul_num; apply round_double_nonneg; cbn [nonneg_number] in Ha; nia.
  - destruct y; cbn; [lia|exact I|exact I].
  - destruct Ha.
Qed.

Lemma num_add_nonneg : forall a b,
  nonneg_number a -> nonneg_number b -> nonneg_number (num_add a b).
Proof.
  intros [x| |] [y| |] Ha Hb; cbn [num_add nonneg_number] in *;
    try exact I; try contradiction.
  apply round_double_nonneg; lia.
Qed.

Lemma parseInt10_digit_string : forall l,
  digit_string l = true -> parseInt10 l = round_double (decimal_value l).
Proof.
  intros [|a l] H; [simpl in H; discriminate H|].
  unfold parseInt10; rewrite take_digits_all by exact H; reflexivity.
Qed.

Lemma hms_digits_split : forall oh dm ds, hms_digits oh dm ds = true ->
  digit_string (hours_str oh) = true /\ digit_string dm = true /\ digit_string ds = true.
Proof.
  intros oh dm ds H; unfold hms_digits in H.
  apply andb_prop in H as [H Hs]; apply andb_prop in H as [Hh Hm]; auto.
Qed.

Lemma js_total_nonneg : forall oh dm ds,
  hms_digits oh dm ds = true -> nonneg_number (js_total oh dm ds).
Proof.
  intros oh dm ds H; apply hms_digits_split in H as (Hh & Hm & Hs).
  unfold js_total; rewrite !parseInt10_digit_string by assumption.
  apply num_add_nonneg; [apply num_add_nonneg; apply num_mul_nonneg; try lia|].
  all: apply round_double_nonneg, decimal_value_nonneg.
Qed.

Lemma js_total_exact : forall oh dm ds, hms_digits oh dm ds = true ->
  (exact_total oh dm ds < 2 ^ 53)%Z -> js_total oh dm ds = Num (exact_total oh dm ds).
Proof.
  intros oh dm ds H Hb; apply hms_digits_split in H as (Hh & Hm & Hs).
  unfold exact_total in *; unfold js_total.
  pose proof (decimal_value_nonneg (hours_str oh)); pose proof (decimal_value_nonneg dm);
    pose proof (decimal_value_nonneg ds).
  rewrite !parseInt10_digit_string by assumption.
  rewrite !(round_double_exact (decimal_value _)) by lia.
  rewrite !num_mul_num, !(round_double_exact (_ * _)) by lia.
  rewrite num_add_num, round_double_exact by lia.
  rewrite num_add_num, round_double_exact by lia.
  reflexivity.
Qed.

(** ** Inverting a match of the timestamp pattern *)

Ltac app_norm_in H :=
  repeat (rewrite <- app_assoc in H || rewrite <- app_comm_cons in H).
Ltac app_norm :=
  repeat (rewrite <- app_assoc || rewrite <- app_comm_cons).

Lemma first_some_some {A B : Type} (f : A -> option B) l y :
  first_some f l = Some y -> exists x, In x l /\ f x = Some y.
Proof.
  induction l as [|x l IH]; simpl; [discriminate|].
  destruct (f x) eqn:E; [intros H; injection H as <-; eauto|].
  intros H; destruct (IH H) as (x' & Hx & Hf); eauto.
Qed.

Lemma in_rep_counts : forall mn n g j, In j (rep_counts mn n g) -> mn <= j <= n.
Proof.
  intros mn n g j; unfold rep_counts.
  destruct g; [rewrite <- in_rev|]; rewrite in_seq; lia.
Qed.

Lemma firstn_run : forall c l j, j <= run_len c l ->
  forallb (class_test c) (firstn j l) = true /\ List.length (firstn j l) = j.
Proof.
  induction l as [|a l IH]; intros [|j] H; simpl in *; try (split; reflexivity); try lia.
  destruct (class_test c a) eqn:E; [|lia].
  destruct (IH j) as [H1 H2]; [lia|]. rewrite H1, H2; split; reflexivity.
Qed.

Lemma skipn_split_at : forall (l : str) i j,
  skipn i l = firstn j (skipn i l) ++ skipn (i + j) l.
Proof.
  intros l i j; rewrite <- (firstn_skipn j (skipn i l)) at 1.
  rewrite skipn_skipn, (Nat.add_comm j i); reflexivity.
Qed.

Lemma skipn_nth_cons : forall (l : str) i a,
  nth_error l i = Some a -> skipn i l = a :: skipn (S i) l.
Proof.
  induction l as [|b l IH]; intros [|i] a H; simpl in *; try discriminate.
  - injection H as ->; reflexivity.
  - apply IH, H.
Qed.

Lemma firstn_of_prefix : forall (l t : str) s e,
  skipn s l = t ++ skipn e l -> s + List.length t = e -> firstn (e - s) (skipn s l) = t.
Proof.
  intros l t s e H He; rewrite H; replace (e - s) with (List.length t) by lia.
  apply firstn_prefix.
Qed.

Lemma exec_some_mt : forall r inp s e cap,
  exec r inp = Some (s, e, cap) ->
  mt inp (multiline r) (rx r) s no_captures final_k = Some (e, cap).
Proof.
  intros r inp s e cap H; unfold exec in H.
  apply first_some_some in H as (s' & _ & H).
  destruct (mt inp (multiline r) (rx r) s' no_captures final_k) as [[e' cap']|] eqn:E;
    [|discriminate H].
  injection H as -> -> ->; exact E.
Qed.

Section MatcherInversion.
Variable inp : str.
Variable ml : bool.

Lemma mt_chr_inv : forall a r i cap k x,
  mt inp ml (Cat (Chr a) r) i cap k = Some x ->
  nth_error inp i = Some a /\ mt inp ml r (S i) cap k = Some x.
Proof.
  intros a r i cap k x H; cbn [mt] in H.
  destruct (nth_error inp i) as [b|]; [|discriminate H].
  destruct (ascii_dec a b) as [<-|]; [auto|discriminate H].
Qed.

Lemma mt_rep_inv : forall c mn g r i cap k x,
  mt inp ml (Cat (Rep c mn g) r) i cap k = Some x ->
  exists j, mn <= j <= run_len c (skipn i inp) /\ mt inp ml r (i + j) cap k = Some x.
Proof.
  intros c mn g r i cap k x H; cbn [mt] in H.
  apply first_some_some in H as (j & Hj & H); apply in_rep_counts in Hj; eauto.
Qed.

Lemma mt_grp_rep_inv : forall n c mn g r i cap k x,
  mt inp ml (Cat (Grp n (Rep c mn g)) r) i cap k = Some x ->
  exists j, mn <= j <= run_len c (skipn i inp) /\
            mt inp ml r (i + j) (set_capture n i (i + j) cap) k = Some x.
Proof.
  intros n c mn g r i cap k x H; cbn [mt] in H.
  apply first_some_some in H as (j & Hj & H); apply in_rep_counts in Hj; eauto.
Qed.

Lemma mt_opt_inv : forall r1 r2 i cap k x,
  mt inp ml (Cat (Opt r1) r2) i cap k = Some x ->
  mt inp ml r1 i cap (fun i' cap' => mt inp ml r2 i' cap' k) = Some x \/
  mt inp ml r2 i cap k = Some x.
Proof.
  intros r1 r2 i cap k x H; cbn [mt] in H.
  destruct (mt inp ml r1 i cap (fun i' cap' => mt inp ml r2 i' cap' k)) as [y|] eqn:E;
    [left; congruence|right; congruence].
Qed.

Lemma mt_alt_inv : forall r1 r2 i cap k x,
  mt inp ml (Alt r1 r2) i cap k = Some x ->
  mt inp ml r1 i cap k = Some x \/ mt inp ml r2 i cap k = Some x.
Proof.
  intros r1 r2 i cap k x H; cbn [mt] in H.
  destruct (mt inp ml r1 i cap k) as [y|] eqn:E; [left; congruence|right; congruence].
Qed.

Lemma digit_run : forall i j, 1 <= j <= run_len CDigit (skipn i inp) ->
  digit_string (firstn j (skipn i inp)) = true /\ List.length (firstn j (skipn i inp)) = j.
Proof.
  intros i j Hj; destruct (firstn_run CDigit (skipn i inp) j) as [H1 H2]; [lia|].
  revert H1 H2; destruct (firstn j (skipn i inp)) as [|a l]; intros H1 H2;
    [simpl in H2; lia|split; [exact H1|exact H2]].
Qed.

(** [(\d+):(\d+)] with groups [m] and [s]. *)
Lemma mt_mid_inv : forall m s r i cap k x,
  mt inp ml (Cat (Grp m (Rep CDigit 1 true))
               (Cat (Chr ":"%char) (Cat (Grp s (Rep CDigit 1 true)) r))) i cap k = Some x ->
  exists dm ds, digit_string dm = true /\ digit_string ds = true /\
    skipn i inp = dm ++ ":"%char :: ds ++ skipn (S (i + List.length dm) + List.length ds) inp /\
    mt inp ml r (S (i + List.length dm) + List.length ds) (mid_caps m s i dm ds cap) k = Some x.
Proof.
  intros m s r i cap k x H.
  apply mt_grp_rep_inv in H as (j1 & Hj1 & H).
  apply mt_chr_inv in H as [Hc H].
  apply mt_grp_rep_inv in H as (j2 & Hj2 & H).
  destruct (digit_run i j1 Hj1) as [D1 L1].
  destruct (digit_run (S (i + j1)) j2 Hj2) as [D2 L2].
  exists (firstn j1 (skipn i inp)), (firstn j2 (skipn (S (i + j1)) inp)).
  unfold mid_caps; rewrite L1, L2.
  split; [exact D1|]; split; [exact D2|]; split; [|exact H].
  rewrite (skipn_split_at inp i j1) at 1.
  rewrite (skipn_nth_cons _ _ _ Hc).
  rewrite (skipn_split_at inp (S (i + j1)) j2) at 1.
  reflexivity.
Qed.

Lemma mt_hms_inv : forall h m s r i cap k x,
  mt inp ml (Cat (hms h m s) r) i cap k = Some x ->
  exists oh dm ds, hms_digits oh dm ds = true /\
    skipn i inp = hms_text oh dm ds ++ skipn (i + List.length (hms_text oh dm ds)) inp /\
    mt inp ml r (i + List.length (hms_text oh dm ds)) (hms_caps h m s i oh dm ds cap) k
      = Some x.
Proof.
  intros h m s r i cap k x H.
  change (mt inp ml
            (Cat (Opt (Cat (Grp h (Rep CDigit 1 true)) (Cat (Chr ":"%char) Emp)))
                 (Cat (Grp m (Rep CDigit 1 true))
                      (Cat (Chr ":"%char) (Cat (Grp s (Rep CDigit 1 true)) Emp))))
            i cap (fun i' cap' => mt inp ml r i' cap' k) = Some x) in H.
  apply mt_opt_inv in H as [H|H].
  - apply mt_grp_rep_inv in H as (j0 & Hj0 & H).
    apply mt_chr_inv in H as [Hc H].
    rewrite mt_emp in H; cbv beta in H.
    apply mt_mid_inv in H as (dm & ds & Dm & Ds & Hsk & H).
    rewrite mt_emp in H; cbv beta in H.
    destruct (digit_run i j0 Hj0) as [D0 L0].
    exists (Some (firstn j0 (skipn i inp))), dm, ds.
    assert (Len : i + List.length (hms_text (Some (firstn j0 (skipn i inp))) dm ds)
                  = S (S (i + j0) + List.length dm) + List.length ds)
      by (cbn [hms_text]; rewrite !length_app; cbn [List.length]; rewrite length_app, L0;
          cbn [List.length]; lia).
    rewrite Len; split; [|split].
    + unfold hms_digits; cbn [hours_str]; rewrite D0, Dm, Ds; reflexivity.
    + rewrite (skipn_split_at inp i j0) at 1.
      rewrite (skipn_nth_cons _ _ _ Hc), Hsk.
      cbn [hms_text]; app_norm; reflexivity.
    + unfold hms_caps; rewrite L0; exact H.
  - apply mt_mid_inv in H as (dm & ds & Dm & Ds & Hsk & H).
    rewrite mt_emp in H; cbv beta in H.
    exists None, dm, ds.
    assert (Len : i + List.length (hms_text None dm ds) = S (i + List.length dm) + List.length ds)
      by (cbn [hms_text]; rewrite length_app; cbn [List.length]; lia).
    rewrite Len; split; [|split].
    + unfold hms_digits; cbn [hours_str]; rewrite Dm, Ds; reflexivity.
    + rewrite Hsk; cbn [hms_text]; app_norm; reflexivity.
    + exact H.
Qed.

End MatcherInversion.

(** Every match of [timestampRegex] is one of its three alternatives
    around a timestamp [hms_text oh dm ds] at some position [i0]. *)
Lemma exec_ts_inv : forall line s e cap,
  exec timestampRegex line = Some (s, e, cap) ->
  exists a b c i0 oh dm ds,
    In (a, b, c) [(1, 2, 3); (4, 5, 6); (7, 8, 9)] /\ hms_digits oh dm ds = true /\
    skipn i0 line = hms_text oh dm ds ++ skipn (i0 + List.length (hms_text oh dm ds)) line /\
    cap = hms_caps a b c i0 oh dm ds no_captures /\
    ts_shape oh dm ds (firstn (e - s) (skipn s line)).
Proof.
  intros line s e cap H; apply exec_some_mt in H.
  unfold timestampRegex in H; cbn [rx multiline cats fold_right] in H; unfold spaces0 in H.
  apply mt_alt_inv in H as [H|H]; [|apply mt_alt_inv in H as [H|H]].
  - apply mt_chr_inv in H as [Hb H].
    apply mt_rep_inv in H as (j1 & Hj1 & H).
    apply mt_hms_inv in H as (oh & dm & ds & Hd & Hsk & H).
    apply mt_rep_inv in H as (j2 & Hj2 & H).
    apply mt_chr_inv in H as [Hc H].
    rewrite mt_emp in H; unfold final_k in H; injection H as He Hcap; subst e.
    exists 1, 2, 3, (S s + j1), oh, dm, ds.
    split; [simpl; auto|]; split; [exact Hd|]; split; [exact Hsk|];
      split; [symmetry; exact Hcap|].
    right.
    destruct (firstn_run CSpace (skipn (S s) line) j1) as [S1 L1]; [lia|].
    destruct (firstn_run CSpace (skipn (S s + j1 + List.length (hms_text oh dm ds)) line) j2)
      as [S2 L2]; [lia|].
    exists (firstn j1 (skipn (S s) line)),
           (firstn j2 (skipn (S s + j1 + List.length (hms_text oh dm ds)) line)).
    split; [exact S1|]; split; [exact S2|]; left.
    apply firstn_of_prefix.
    + rewrite (skipn_nth_cons _ _ _ Hb).
      rewrite (skipn_split_at line (S s) j1) at 1.
      rewrite Hsk.
      rewrite (skipn_split_at line (S s + j1 + List.length (hms_text oh dm ds)) j2) at 1.
      rewrite (skipn_nth_cons _ _ _ Hc).
      app_norm; reflexivity.
    + cbn [List.length]; rewrite !length_app; cbn [List.length]; rewrite L1, L2; lia.
  - apply mt_chr_inv in H as [Hb H].
    apply mt_rep_inv in H as (j1 & Hj1 & H).
    apply mt_hms_inv in H as (oh & dm & ds & Hd & Hsk & H).
    apply mt_rep_inv in H as (j2 & Hj2 & H).
    apply mt_chr_inv in H as [Hc H].
    rewrite mt_emp in H; unfold final_k in H; injection H as He Hcap; subst e.
    exists 4, 5, 6, (S s + j1), oh, dm, ds.
    split; [simpl; auto|]; split; [exact Hd|]; split; [exact Hsk|];
      split; [symmetry; exact Hcap|].
    right.
    destruct (firstn_run CSpace (skipn (S s) line) j1) as [S1 L1]; [lia|].
    destruct (firstn_run CSpace (skipn (S s + j1 + List.length (hms_text oh dm ds)) line) j2)
      as [S2 L2]; [lia|].
    exists (firstn j1 (skipn (S s) line)),
           (firstn j2 (skipn (S s + j1 + List.length (hms_text oh dm ds)) line)).
    split; [exact S1|]; split; [exact S2|]; right.
    apply firstn_of_prefix.
    + rewrite (skipn_nth_cons _ _ _ Hb).
      rewrite (skipn_split_at line (S s) j1) at 1.
      rewrite Hsk.
      rewrite (skipn_split_at line (S s + j1 + List.length (hms_text oh dm ds)) j2) at 1.
      rewrite (skipn_nth_cons _ _ _ Hc).
      app_norm; reflexivity.
    + cbn [List.length]; rewrite !length_app; cbn [List.length]; rewrite L1, L2; lia.
  - change (mt line false (Cat (hms 7 8 9) Emp) s no_captures final_k = Some (e, cap)) in H.
    apply mt_hms_inv in H as (oh & dm & ds & Hd & Hsk & H).
    rewrite mt_emp in H; unfold final_k in H; injection H as He Hcap; subst e.
    exists 7, 8, 9, s, oh, dm, ds.
    split; [simpl; auto|]; split; [exact Hd|]; split; [exact Hsk|];
      split; [symmetry; exact Hcap|].
    left; apply firstn_of_prefix; [exact Hsk|reflexivity].
Qed.

Lemma group_set : forall line i d rest a cap n,
  skipn i line = d ++ rest ->
  group line (set_capture a i (i + List.length d) cap) n =
  if n =? a then Some d else group line cap n.
Proof.
  intros line i d rest a cap n H; unfold group at 1, set_capture.
  destruct (n =? a); [|reflexivity].
  cbv beta iota.
  rewrite H; replace (i + List.length d - i) with (List.length d) by lia.
  rewrite firstn_prefix; reflexivity.
Qed.

Lemma group_mid : forall line i dm ds rest b c cap n,
  skipn i line = dm ++ ":"%char :: ds ++ rest ->
  group line (mid_caps b c i dm ds cap) n =
  if n =? c then Some ds else if n =? b then Some dm else group line cap n.
Proof.
  intros line i dm ds rest b c cap n H.
  pose proof (skipn_app_len _ _ _ _ H) as H1.
  destruct (skipn_cons_step _ _ _ _ H1) as [H2 _].
  unfold mid_caps.
  rewrite (group_set line (S (i + List.length dm)) ds rest) by exact H2.
  destruct (n =? c); [reflexivity|].
  rewrite (group_set line i dm (":"%char :: ds ++ rest)) by exact H.
  reflexivity.
Qed.

Lemma group_hms : forall line a b c i oh dm ds rest cap n,
  skipn i line = hms_text oh dm ds ++ rest ->
  group line (hms_caps a b c i oh dm ds cap) n =
  if n =? c then Some ds else if n =? b then Some dm else
  match oh with
  | Some dh => if n =? a then Some dh else group line cap n
  | None => group line cap n
  end.
Proof.
  intros line a b c i [dh|] dm ds rest cap n H; cbn [hms_caps hms_text] in *;
    app_norm_in H.
  - pose proof (skipn_app_len _ _ _ _ H) as H1.
    destruct (skipn_cons_step _ _ _ _ H1) as [H2 _].
    rewrite (group_mid line (S (i + List.length dh)) dm ds rest) by exact H2.
    destruct (n =? c); [reflexivity|]; destruct (n =? b); [reflexivity|].
    apply (group_set line i dh (":"%char :: dm ++ ":"%char :: ds ++ rest)), H.
  - apply (group_mid line i dm ds rest), H.
Qed.

Lemma pft_from_caps : forall line s e a b c i oh dm ds rest,
  exec timestampRegex line = Some (s, e, hms_caps a b c i oh dm ds no_captures) ->
  In (a, b, c) [(1, 2, 3); (4, 5, 6); (7, 8, 9)] ->
  hms_digits oh dm ds = true ->
  skipn i line = hms_text oh dm ds ++ rest ->
  fst (parseFlexibleTimestamps line) = js_total oh dm ds.
Proof.
  intros line s e a b c i oh dm ds rest Hexec Habc Hd Hsk.
  pose proof (fun n => group_hms line a b c i oh dm ds rest no_captures n Hsk) as G.
  apply hms_digits_split in Hd as (Hh & Hm & Hs).
  unfold parseFlexibleTimestamps; rewrite Hexec; cbn [fst].
  rewrite !G.
  destruct dm as [|m0 dm']; [simpl in Hm; discriminate Hm|].
  destruct ds as [|s0 ds']; [simpl in Hs; discriminate Hs|].
  destruct Habc as [E|[E|[E|[]]]]; injection E as <- <- <-;
    (destruct oh as [[|h0 dh']|]; [simpl in Hh; discriminate Hh| |]);
    cbn [Nat.eqb group no_captures js_or]; reflexivity.
Qed.

(** What [parseFlexibleTimestamps] extracts whenever [timestampRegex]
    matches: the value of the matched timestamp, in JavaScript numbers. *)
Lemma pft_exec_shape : forall line s e cap,
  exec timestampRegex line = Some (s, e, cap) ->
  exists oh dm ds, hms_digits oh dm ds = true /\
    ts_shape oh dm ds (firstn (e - s) (skipn s line)) /\
    fst (parseFlexibleTimestamps line) = js_total oh dm ds.
Proof.
  intros line s e cap H.
  destruct (exec_ts_inv line s e cap H)
    as (a & b & c & i & oh & dm & ds & Habc & Hd & Hsk & Hcap & Hsh).
  exists oh, dm, ds; split; [exact Hd|]; split; [exact Hsh|].
  subst cap; eapply pft_from_caps; eassumption.
Qed.

Lemma pft_two_components : forall pre dm ds rest,
  forallb opens_no_timestamp pre = true ->
  dm <> [] -> ds <> [] -> forallb is_digit dm = true -> forallb is_digit ds = true ->
  starts_outside CDigit rest = true -> hd_error rest <> Some ":"%char ->
  fst (parseFlexibleTimestamps (pre ++ dm ++ ":"%char :: ds ++ rest)) = js_total None dm ds.
Proof.
  intros pre dm ds rest Hpre Hdm Hds Ddm Dds Hr Hc.
  unfold parseFlexibleTimestamps.
  rewrite (ts_exec_after_prefix _ _ _ _ Hpre (ts_bare_two _ _ _ _ _ (skipn_prefix _ _) Hdm Hds Ddm Dds Hr Hc)).
  unfold group, set_capture, no_captures; cbn [Nat.eqb fst].
  pose proof (skipn_app_len _ _ _ _ (skipn_prefix pre (dm ++ ":"%char :: ds ++ rest))) as H1.
  destruct (skipn_cons_step _ _ _ _ H1) as [H2 _].
  replace (List.length pre + List.length dm - List.length pre) with (List.length dm) by lia.
  replace (S (List.length pre + List.length dm) + List.length ds
           - S (List.length pre + List.length dm)) with (List.length ds) by lia.
  rewrite skipn_prefix, firstn_prefix, H2, firstn_prefix.
  destruct dm as [|a dm']; [congruence|]; destruct ds as [|b ds']; [congruence|].
  cbn [js_or]; reflexivity.
Qed.

Lemma pft_three_components : forall pre dh dm ds rest,
  forallb opens_no_timestamp pre = true ->
  dh <> [] -> dm <> [] -> ds <> [] ->
  forallb is_digit dh = true -> forallb is_digit dm = true -> forallb is_digit ds = true ->
  starts_outside CDigit rest = true ->
  fst (parseFlexibleTimestamps (pre ++ dh ++ ":"%char :: dm ++ ":"%char :: ds ++ rest)) =
    js_total (Some dh) dm ds.
Proof.
  intros pre dh dm ds rest Hpre Hdh Hdm Hds Ddh Ddm Dds Hr.
  unfold parseFlexibleTimestamps.
  rewrite (ts_exec_after_prefix _ _ _ _ Hpre
             (ts_bare_three _ _ _ _ _ _ (skipn_prefix _ _) Hdh Hdm Hds Ddh Ddm Dds Hr)).
  unfold group, set_capture, no_captures; cbn [Nat.eqb fst].
  pose proof (skipn_app_len _ _ _ _
                (skipn_prefix pre (dh ++ ":"%char :: dm ++ ":"%char :: ds ++ rest))) as H1.
  destruct (skipn_cons_step _ _ _ _ H1) as [H2 _].
  pose proof (skipn_app_len _ _ _ _ H2) as H3.
  destruct (skipn_cons_step _ _ _ _ H3) as [H4 _].
  set (p1 := S (List.length pre + List.length dh)) in *.
  set (p2 := S (p1 + List.length dm)) in *.
  replace (List.length pre + List.length dh - List.length pre) with (List.length dh) by lia.
  replace (p1 + List.length dm - p1) with (List.length dm) by lia.
  replace (p2 + List.length ds - p2) with (List.length ds) by lia.
  rewrite skipn_prefix, firstn_prefix, H2, firstn_prefix, H4, firstn_prefix.
  destruct dh as [|a dh']; [congruence|]; destruct dm as [|b dm']; [congruence|];
    destruct ds as [|c ds']; [congruence|].
  cbn [js_or]; reflexivity.
Qed.

Ltac closed_neq := let H := fresh in intro H; vm_compute in H; discriminate H.

(** C2 (corrected): whenever [timestampRegex] finds a timestamp in the
    line, bracketed, parenthesised or bare, wherever it stands, with
    hours [oh] (absent: the string ["0"]), minutes [dm] and seconds [ds]
    as digit strings, the start is [hours*3600 + minutes*60 + seconds]
    computed in JavaScript numbers over the [parseInt] values, with no
    check or clamping against 60.  It is the exact integer whenever that
    is below [2^53]; above, it is rounded as doubles are. *)
Theorem parseFlexibleTimestamps_total_seconds :
  (forall line s e cap, exec timestampRegex line = Some (s, e, cap) ->
     exists oh dm ds,
       hms_digits oh dm ds = true /\
       ts_shape oh dm ds (firstn (e - s) (skipn s line)) /\
       fst (parseFlexibleTimestamps line) = js_total oh dm ds /\
       ((exact_total oh dm ds < 2 ^ 53)%Z ->
        fst (parseFlexibleTimestamps line) = Num (exact_total oh dm ds))) /\
  fst (parseFlexibleTimestamps (s2l "1:02:03 Intro")) = Num 3723 /\
  parseFlexibleTimestamps (s2l "2:05 Chapter Two") = (Num 125, s2l "Chapter Two") /\
  fst (parseFlexibleTimestamps (s2l "[ 1:99 ] x")) = Num 159 /\
  fst (parseFlexibleTimestamps (s2l "9007199254740993:00 X")) = Num 540431955284459520.
Proof.
  split; [|vm_compute; repeat split; reflexivity].
  intros line s e cap H.
  destruct (pft_exec_shape line s e cap H) as (oh & dm & ds & Hd & Hsh & Hv).
  exists oh, dm, ds; split; [exact Hd|]; split; [exact Hsh|]; split; [exact Hv|].
  intros Hb; rewrite Hv; apply js_total_exact; assumption.
Qed.

Lemma parseFlexibleTimestamps_total_seconds_witness :
  exists s e cap,
    exec timestampRegex (s2l "Part [ 1:02:75 ] recap") = Some (s, e, cap) /\
    exists oh dm ds,
      hms_digits oh dm ds = true /\
      ts_shape oh dm ds (firstn (e - s) (skipn s (s2l "Part [ 1:02:75 ] recap"))) /\
      fst (parseFlexibleTimestamps (s2l "Part [ 1:02:75 ] recap")) = js_total oh dm ds /\
      ((exact_total oh dm ds < 2 ^ 53)%Z ->
       fst (parseFlexibleTimestamps (s2l "Part [ 1:02:75 ] recap")) = Num (exact_total oh dm ds)).
Proof.
  destruct (exec timestampRegex (s2l "Part [ 1:02:75 ] recap")) as [[[s e] cap]|] eqn:E;
    [|vm_compute in E; discriminate E].
  exists s, e, cap; split; [reflexivity|].
  exact (proj1 parseFlexibleTimestamps_total_seconds _ s e cap E).
Defined.

(** The literal reading of C2, over the integers, fails for totals past
    [2^53]: the code computes in doubles. *)
Lemma parseFlexibleTimestamps_rounding_counterexample :
  fst (parseFlexibleTimestamps (s2l "9007199254740993:00 X")) = Num 540431955284459520 /\
  fst (parseFlexibleTimestamps (s2l "9007199254740993:00 X")) <> Num (9007199254740993 * 60 + 0).
Proof. split; [vm_compute; reflexivity|closed_neq]. Qed.

(** ** Ordinal stripping *)

Lemma ordinal_exec : forall ds rest,
  ds <> [] -> forallb is_digit ds = true ->
  exec ordinalRegex (ds ++ "."%char :: rest) =
    Some (0, S (List.length ds) + run_len CSpace rest, no_captures).
Proof.
  intros ds rest Hds Dds.
  set (line := ds ++ "."%char :: rest).
  assert (Hskip : skipn 0 line = ds ++ "."%char :: rest) by reflexivity.
  pose proof (skipn_app_len _ _ _ _ Hskip) as H1.
  destruct (skipn_cons_step _ _ _ _ H1) as [H2 Hdot].
  apply exec_at; [lia|intros; lia|].
  unfold ordinalRegex; cbn [rx multiline cats fold_right]; unfold digits1, spaces0.
  rewrite mt_cat_bol0.
  rewrite (mt_rep1_chr _ _ _ _ _ _ (List.length ds)); [| |destruct ds; simpl; [congruence|lia]|reflexivity].
  2:{ rewrite Hskip; apply run_len_app; auto. }
  rewrite mt_chr_ok by exact Hdot.
  change (mt line false (Cat (Rep CSpace 0 true) Emp) (S (0 + List.length ds)) no_captures final_k)
    with (mt line false (Rep CSpace 0 true) (S (0 + List.length ds)) no_captures
             (fun i' cap' => final_k i' cap')).
  apply mt_rep_greedy_some; [lia|].
  cbv beta; rewrite H2; reflexivity.
Qed.

Lemma ltrim_idem : forall l, ltrim (ltrim l) = ltrim l.
Proof. intros l; unfold ltrim; rewrite run_len_skip; reflexivity. Qed.

Lemma trim_ltrim : forall l, trim (ltrim l) = trim l.
Proof. intros l; unfold trim; rewrite ltrim_idem; reflexivity. Qed.

(** C6 (as the code has it): after the timestamp is removed, a leading
    run of digits followed by a dot and ANY amount of whitespace, none
    included, is stripped, then the rest is trimmed; this happens for
    every line, whatever the format.  So ["1. 0:00 Intro"] and
    ["2.Intro 0:00"] both get the title ["Intro"]. *)
Theorem parseFlexibleTimestamps_strips_ordinal :
  (forall line s e cap ds rest,
     exec timestampRegex line = Some (s, e, cap) ->
     firstn s line ++ skipn e line = ds ++ "."%char :: rest ->
     ds <> [] -> forallb is_digit ds = true ->
     snd (parseFlexibleTimestamps line) = trim rest) /\
  parseFlexibleTimestamps (s2l "1. 0:00 Intro") = (Num 0, s2l "Intro") /\
  prefixParser (s2l "1. 0:00 Intro") = [ch 0 "Intro"] /\
  parseFlexibleTimestamps (s2l "2.Intro 0:00") = (Num 0, s2l "Intro").
Proof.
  split; [|vm_compute; repeat split; reflexivity].
  intros line s e cap ds rest Hexec Hrem Hds Dds.
  unfold parseFlexibleTimestamps; rewrite Hexec; cbn [snd].
  unfold replace_empty at 2; rewrite Hexec, Hrem.
  unfold replace_empty; rewrite ordinal_exec by assumption.
  cbn [firstn app].
  replace (S (List.length ds) + run_len CSpace rest) with
    (S (List.length ds + run_len CSpace rest)) by lia.
  rewrite skipn_app, skipn_all2 by lia.
  replace (S (List.length ds + run_len CSpace rest) - List.length ds)
    with (S (run_len CSpace rest)) by lia.
  cbn [skipn app]; apply trim_ltrim.
Qed.

Lemma parseFlexibleTimestamps_strips_ordinal_witness :
  exec timestampRegex (s2l "1. 0:00 Intro") =
    Some (3, 7, set_capture 9 5 7 (set_capture 8 3 4 no_captures)) /\
  firstn 3 (s2l "1. 0:00 Intro") ++ skipn 7 (s2l "1. 0:00 Intro") =
    s2l "1" ++ "."%char :: s2l "  Intro" /\
  snd (parseFlexibleTimestamps (s2l "1. 0:00 Intro")) = trim (s2l "  Intro").
Proof.
  split; [vm_compute; reflexivity|]; split; [vm_compute; reflexivity|].
  apply (proj1 parseFlexibleTimestamps_strips_ordinal _ 3 7
           (set_capture 9 5 7 (set_capture 8 3 4 no_captures)) (s2l "1"));
    solve [vm_compute; reflexivity | closed_neq].
Defined.

(** C6 fails as stated: the digits-and-dot prefix is stripped even when no
    whitespace follows the dot.  Removing the timestamp from
    ["2.Intro 0:00"] leaves ["2.Intro "], whose ["2."] is followed by
    ["I"], and the title is ["Intro"]. *)
Lemma ordinal_without_space_counterexample :
  replace_empty (s2l "2.Intro 0:00") timestampRegex = s2l "2.Intro " /\
  snd (parseFlexibleTimestamps (s2l "2.Intro 0:00")) = s2l "Intro".
Proof. split; vm_compute; reflexivity. Qed.

(** ** Further properties: the Line Normalizer *)

Lemma split_lf_no_lf : forall d, Forall (fun l => ~ In LF l) (split_lf d).
Proof.
  induction d as [|a d IH]; simpl.
  - repeat constructor; simpl; tauto.
  - destruct (ascii_dec a LF) as [E|E]; [constructor; [simpl; tauto|exact IH]|].
    destruct (split_lf d) as [|x xs] eqn:Hs; [now apply split_lf_not_nil in Hs|].
    inversion IH as [|? ? Hx Hxs]; subst; constructor; [|exact Hxs].
    simpl; intros [H|H]; [congruence|contradiction].
Qed.

(** [split('\n')] loses nothing: joining its pieces with LF gives the
    description back, and no piece contains an LF. *)
Theorem split_lf_join_roundtrip : forall d,
  join [LF] (split_lf d) = d /\ Forall (fun l => ~ In LF l) (split_lf d).
Proof.
  intros d; split; [|apply split_lf_no_lf].
  induction d as [|a d IH]; simpl; [reflexivity|].
  destruct (ascii_dec a LF) as [->|E].
  - destruct (split_lf d) as [|x xs] eqn:Hs; [now apply split_lf_not_nil in Hs|].
    simpl in *; rewrite IH; reflexivity.
  - destruct (split_lf d) as [|x xs] eqn:Hs; [now apply split_lf_not_nil in Hs|].
    simpl in *; rewrite IH; reflexivity.
Qed.

Lemma run_len_all : forall c l, forallb (class_test c) l = true -> run_len c l = List.length l.
Proof.
  induction l as [|a l IH]; simpl; intros H; [reflexivity|].
  apply andb_prop in H as [-> H]; rewrite IH; auto.
Qed.









Lemma split_lf_blank : forall d, forallb is_space d = true ->
  forall l, In l (split_lf d) -> forallb is_space l = true.
Proof.
  induction d as [|a d IH]; simpl; intros Hd l Hl.
  - destruct Hl as [<-|[]]; reflexivity.
  - apply andb_prop in Hd as [Ha Hd].
    destruct (ascii_dec a LF).
    + destruct Hl as [<-|Hl]; [reflexivity|auto].
    + destruct (split_lf d) as [|x xs] eqn:Hs; [now apply split_lf_not_nil in Hs|].
      destruct Hl as [<-|Hl]; simpl.
      * rewrite Ha; apply IH; simpl; auto.
      * apply IH; simpl; auto.
Qed.

Lemma trim_blank : forall l, forallb is_space l = true -> trim l = [].
Proof.
  intros l H; unfold trim, ltrim.
  rewrite (run_len_all CSpace l H), skipn_all; reflexivity.
Qed.

Lemma skipEmptyLines_blank : forall d, forallb is_space d = true -> skipEmptyLines d = [].
Proof.
  intros d H; unfold skipEmptyLines.
  apply filter_all_false, forallb_forall; intros l Hl.
  rewrite trim_blank by (apply (split_lf_blank d H l Hl)); reflexivity.
Qed.

(** ** Further properties: the factory and the cascade *)

Lemma parseYouTubeChapters_is_parser : forall d,
  exists startRx lineRx ti xi,
    In (makeChapterParser startRx lineRx ti xi) formatParsers /\
    parseYouTubeChapters d = makeChapterParser startRx lineRx ti xi d.
Proof.
  intros d; unfold parseYouTubeChapters.
  destruct (lawfulParser d) eqn:E1;
    [|exists lawfulStartRx, lawfulLineRx, 0, 3; split; [left; reflexivity|]; 
      cbn [List.length Nat.eqb]; symmetry; exact E1].
  destruct (bracketsParser d) eqn:E2;
    [|exists bracketsStartRx, bracketsLineRx, 0, 3; split; [right; left; reflexivity|];
      cbn [List.length Nat.eqb]; symmetry; exact E2].
  destruct (parensParser d) eqn:E3;
    [|exists parensStartRx, parensLineRx, 0, 3; split; [do 2 right; left; reflexivity|];
      cbn [List.length Nat.eqb]; symmetry; exact E3].
  destruct (postfixParser d) eqn:E4;
    [|exists (addM postfixRx), postfixRx, 1, 0; split; [do 3 right; left; reflexivity|];
      cbn [List.length Nat.eqb]; symmetry; exact E4].
  destruct (postfixParenParser d) eqn:E5;
    [|exists (addM postfixParenRx), postfixParenRx, 1, 0; split; [do 4 right; left; reflexivity|];
      cbn [List.length Nat.eqb]; symmetry; exact E5].
  exists (addM prefixRx), prefixRx, 0, 3; split; [do 5 right; left; reflexivity|].
  cbn [List.length Nat.eqb]; reflexivity.
Qed.

(** A description made only of whitespace (the empty one included) gives
    no chapter. *)
Theorem parseYouTubeChapters_blank : forall d,
  forallb is_space d = true -> parseYouTubeChapters d = [].
Proof.
  intros d H.
  destruct (parseYouTubeChapters_is_parser d) as (s & l & a & b & _ & ->).
  rewrite makeChapterParser_eq, skipEmptyLines_blank by exact H; reflexivity.
Qed.

Lemma parseYouTubeChapters_blank_witness :
  forallb is_space (s2l "  " ++ [LF; ascii_of_nat 9; ascii_of_nat 160] ++ [CR; LF] ++ s2l " ") = true /\
  parseYouTubeChapters (s2l "  " ++ [LF; ascii_of_nat 9; ascii_of_nat 160] ++ [CR; LF] ++ s2l " ") = [].
Proof.
  split; [vm_compute; reflexivity|].
  apply parseYouTubeChapters_blank; vm_compute; reflexivity.
Defined.

(** Every chapter a factory-built parser returns is the chapter of a
    non-empty line of the description that matches the line pattern, and
    there are never more chapters than non-empty lines. *)
Theorem makeChapterParser_chapters_from_lines : forall startRx lineRx ti xi d,
  (forall c, In c (makeChapterParser startRx lineRx ti xi d) ->
     exists l, In l (skipEmptyLines d) /\ test lineRx l = true /\ c = chapterOfLine l) /\
  List.length (makeChapterParser startRx lineRx ti xi d) <= List.length (skipEmptyLines d).
Proof.
  intros startRx lineRx ti xi d; rewrite makeChapterParser_eq.
  destruct (findIndex (test startRx) (skipEmptyLines d)) as [i|].
  - split.
    + intros c Hc; apply in_map_iff in Hc as (l & <- & Hl).
      apply filter_In in Hl as [Hl Ht].
      exists l; split; [|auto].
      rewrite <- (firstn_skipn i (skipEmptyLines d)); apply in_or_app; now right.
    + rewrite length_map.
      transitivity (List.length (skipn i (skipEmptyLines d))); [apply filter_length_le|].
      rewrite length_skipn; lia.
  - split; [intros c []|simpl; lia].
Qed.

(** The cascade returns the empty sequence exactly when all six format
    parsers do. *)
Theorem parseYouTubeChapters_empty_iff : forall d,
  parseYouTubeChapters d = [] <-> Forall (fun p => p d = []) formatParsers.
Proof.
  intros d; unfold parseYouTubeChapters, formatParsers; split.
  - destruct (lawfulParser d) eqn:E1; [|cbn [List.length Nat.eqb]; intro H; discriminate H].
    destruct (bracketsParser d) eqn:E2; [|cbn [List.length Nat.eqb]; intro H; discriminate H].
    destruct (parensParser d) eqn:E3; [|cbn [List.length Nat.eqb]; intro H; discriminate H].
    destruct (postfixParser d) eqn:E4; [|cbn [List.length Nat.eqb]; intro H; discriminate H].
    destruct (postfixParenParser d) eqn:E5; [|cbn [List.length Nat.eqb]; intro H; discriminate H].
    cbn [List.length Nat.eqb]; intros E6; repeat constructor; assumption.
  - intros H; inversion_clear H as [|? ? H1 H']; inversion_clear H' as [|? ? H2 H''];
      inversion_clear H'' as [|? ? H3 H4]; inversion_clear H4 as [|? ? H4' H5];
      inversion_clear H5 as [|? ? H5' H6]; inversion_clear H6 as [|? ? H6' _].
    rewrite H1, H2, H3, H4', H5', H6'; reflexivity.
Qed.

(** ** Further properties: the Timestamp Extractor *)

Lemma parseFlexibleTimestamps_nonneg : forall line,
  nonneg_number (fst (parseFlexibleTimestamps line)).
Proof.
  intros line; destruct (exec timestampRegex line) as [[[s e] cap]|] eqn:E.
  - destruct (pft_exec_shape line s e cap E) as (oh & dm & ds & Hd & _ & ->).
    apply js_total_nonneg, Hd.
  - unfold parseFlexibleTimestamps; rewrite E; cbn [fst nonneg_number]; lia.
Qed.

Lemma parseYouTubeChapters_from_line : forall d c,
  In c (parseYouTubeChapters d) -> exists l, c = chapterOfLine l.
Proof.
  intros d c H.
  destruct (parseYouTubeChapters_is_parser d) as (s & r & a & b & _ & E); rewrite E in H.
  rewrite makeChapterParser_eq in H.
  destruct (findIndex (test s) (skipEmptyLines d)); [|destruct H].
  apply in_map_iff in H as (l & <- & _); eauto.
Qed.

(** Every chapter start is a non-negative number of seconds, or
    [Infinity] for digit strings past the range of doubles; never [NaN]. *)
Theorem parseYouTubeChapters_starts_nonneg : forall d c,
  In c (parseYouTubeChapters d) -> nonneg_number (start c).
Proof.
  intros d c H; destruct (parseYouTubeChapters_from_line d c H) as [l ->].
  unfold chapterOfLine; pose proof (parseFlexibleTimestamps_nonneg l) as P.
  destruct (parseFlexibleTimestamps l); exact P.
Qed.

Lemma parseYouTubeChapters_starts_nonneg_witness :
  In (ch 90 "Middle") (parseYouTubeChapters (s2l "0:00 Intro" ++ [LF] ++ s2l "1:30 Middle")) /\
  nonneg_number (start (ch 90 "Middle")).
Proof.
  split; [vm_compute; tauto|].
  apply (parseYouTubeChapters_starts_nonneg (s2l "0:00 Intro" ++ [LF] ++ s2l "1:30 Middle")).
  vm_compute; tauto.
Defined.

Lemma run_len_zero_app : forall c (p s : str),
  p <> [] -> run_len c (p ++ s) = 0 -> run_len c p = 0.
Proof.
  intros c [|a p] s Hp H; [congruence|]; simpl in *.
  destruct (class_test c a); [discriminate|reflexivity].
Qed.

Lemma rtrim_keeps_head : forall l,
  run_len CSpace l = 0 -> run_len CSpace (rev (ltrim (rev l))) = 0.
Proof.
  intros l H.
  assert (E : l = rev (ltrim (rev l)) ++ rev (firstn (run_len CSpace (rev l)) (rev l))).
  { unfold ltrim; rewrite <- rev_app_distr, firstn_skipn, rev_involutive; reflexivity. }
  destruct (rev (ltrim (rev l))) as [|a p] eqn:Ep; [reflexivity|].
  apply (run_len_zero_app _ _ (rev (firstn (run_len CSpace (rev l)) (rev l)))); [discriminate|].
  rewrite <- E; exact H.
Qed.

Lemma trim_clean : forall l,
  run_len CSpace (trim l) = 0 /\ run_len CSpace (rev (trim l)) = 0.
Proof.
  intros l; unfold trim; split.
  - apply rtrim_keeps_head; unfold ltrim; apply run_len_skip.
  - rewrite rev_involutive; unfold ltrim at 1; apply run_len_skip.
Qed.

(** No chapter title begins or ends with whitespace (nor is its first or
    last character a line terminator). *)
Theorem parseYouTubeChapters_titles_trimmed : forall d c,
  In c (parseYouTubeChapters d) ->
  run_len CSpace (title c) = 0 /\ run_len CSpace (rev (title c)) = 0.
Proof.
  intros d c H; destruct (parseYouTubeChapters_from_line d c H) as [l ->].
  unfold chapterOfLine; destruct (parseFlexibleTimestamps l); apply trim_clean.
Qed.

Lemma parseYouTubeChapters_titles_trimmed_witness :
  In (ch 0 "Intro")
     (parseYouTubeChapters (s2l "0:00 " ++ [ascii_of_nat 160] ++ s2l "Intro" ++ [LF] ++
                            s2l "1:30 Middle" ++ [ascii_of_nat 160])) /\
  run_len CSpace (title (ch 0 "Intro")) = 0 /\ run_len CSpace (rev (title (ch 0 "Intro"))) = 0.
Proof.
  split; [vm_compute; tauto|].
  apply (parseYouTubeChapters_titles_trimmed
           (s2l "0:00 " ++ [ascii_of_nat 160] ++ s2l "Intro" ++ [LF] ++
            s2l "1:30 Middle" ++ [ascii_of_nat 160])).
  vm_compute; tauto.
Defined.

Lemma mt_chr_then_none : forall inp ml a r i cap k,
  (forall j cap', mt inp ml r j cap' k = None) -> mt inp ml (Cat (Chr a) r) i cap k = None.
Proof.
  intros inp ml a r i cap k H; cbn [mt].
  destruct (nth_error inp i); [destruct (ascii_dec a a0); auto|reflexivity].
Qed.

Lemma mt_chr_absent : forall inp ml a r i cap k,
  ~ In a inp -> mt inp ml (Cat (Chr a) r) i cap k = None.
Proof.
  intros inp ml a r i cap k H; cbn [mt].
  destruct (nth_error inp i) as [b|] eqn:E; [|reflexivity].
  destruct (ascii_dec a b) as [<-|]; [apply nth_error_In in E; contradiction|reflexivity].
Qed.

Lemma mt_rep_none : forall inp ml c mn g r i cap k,
  (forall j cap', mt inp ml r j cap' k = None) -> mt inp ml (Cat (Rep c mn g) r) i cap k = None.
Proof. intros; cbn [mt]; apply first_some_none; auto. Qed.

Lemma mt_grp_rep_none : forall inp ml n c mn g r i cap k,
  (forall j cap', mt inp ml r j cap' k = None) ->
  mt inp ml (Cat (Grp n (Rep c mn g)) r) i cap k = None.
Proof. intros; cbn [mt]; apply first_some_none; auto. Qed.

Lemma hms_absent : forall inp ml h m s i cap k,
  ~ In ":"%char inp -> mt inp ml (hms h m s) i cap k = None.
Proof.
  intros inp ml h m s i cap k H; unfold hms; cbn [cats fold_right]; unfold digits1, colon.
  rewrite mt_cat_opt, mt_grp_rep_none by (intros; apply mt_chr_absent, H).
  apply mt_grp_rep_none; intros; apply mt_chr_absent, H.
Qed.

Lemma mt_cat_hms_absent : forall inp ml h m s r i cap k,
  ~ In ":"%char inp -> mt inp ml (Cat (hms h m s) r) i cap k = None.
Proof.
  intros inp ml h m s r i cap k H.
  change (mt inp ml (hms h m s) i cap (fun i' cap' => mt inp ml r i' cap' k) = None).
  apply hms_absent, H.
Qed.

(** A line without any colon has no timestamp: its value is 0 and its
    title is the whole line, untrimmed. *)
Theorem parseFlexibleTimestamps_no_colon : forall line,
  ~ In ":"%char line -> parseFlexibleTimestamps line = (Num 0, line).
Proof.
  intros line H; unfold parseFlexibleTimestamps.
  replace (exec timestampRegex line) with (@None (nat * nat * captures)); [reflexivity|].
  symmetry; unfold exec; apply first_some_none; intros s _.
  unfold timestampRegex; cbn [rx multiline cats fold_right]; unfold spaces0.
  rewrite mt_alt, mt_chr_then_none
    by (intros; apply mt_rep_none; intros; apply mt_cat_hms_absent, H).
  rewrite mt_alt, mt_chr_then_none
    by (intros; apply mt_rep_none; intros; apply mt_cat_hms_absent, H).
  rewrite hms_absent by exact H; reflexivity.
Qed.

Lemma parseFlexibleTimestamps_no_colon_witness :
  ~ In ":"%char (s2l " [1.30] (2) 45 Intro ") /\
  parseFlexibleTimestamps (s2l " [1.30] (2) 45 Intro ") = (Num 0, s2l " [1.30] (2) 45 Intro ").
Proof.
  split; [vm_compute; intuition discriminate|].
  apply parseFlexibleTimestamps_no_colon; vm_compute; intuition discriminate.
Defined.

Lemma ordinal_none : forall l, starts_outside CDigit l = true -> exec ordinalRegex l = None.
Proof.
  intros l H; unfold exec; apply first_some_none; intros [|s] _.
  - assert (R : run_len CDigit (skipn 0 l) = 0).
    { destruct l as [|a l]; simpl in *; [reflexivity|].
      destruct (is_digit a); [discriminate|reflexivity]. }
    unfold ordinalRegex; cbn [rx multiline cats fold_right]; rewrite mt_cat_bol0.
    unfold digits1; cbn [mt]; rewrite R; reflexivity.
  - reflexivity.
Qed.

Lemma pft_title_after : forall line s e cap t,
  exec timestampRegex line = Some (s, e, cap) ->
  firstn s line ++ skipn e line = t -> starts_outside CDigit t = true ->
  snd (parseFlexibleTimestamps line) = trim t.
Proof.
  intros line s e cap t Hexec Hrem Ht.
  unfold parseFlexibleTimestamps; rewrite Hexec; cbn [snd].
  unfold replace_empty at 2; rewrite Hexec, Hrem.
  unfold replace_empty; rewrite ordinal_none by exact Ht; reflexivity.
Qed.

Lemma starts_outside_pre : forall pre rest,
  forallb opens_no_timestamp pre = true -> starts_outside CDigit rest = true ->
  starts_outside CDigit (pre ++ rest) = true.
Proof.
  intros [|a pre] rest Hpre Hr; [exact Hr|]; simpl in *.
  unfold opens_no_timestamp in Hpre.
  destruct (is_digit a); [discriminate|reflexivity].
Qed.

Lemma digit_string_of : forall l, l <> [] -> forallb is_digit l = true -> digit_string l = true.
Proof. intros [|a l] Hl H; [congruence|exact H]. Qed.

(** A line made of text [pre] (no digit, no [[] and no [(]), a bare
    timestamp [m:ss] or [h:mm:ss], and the rest of the line (not going on
    with a digit, nor with a colon after [m:ss]) gives that timestamp's
    value in seconds, computed in JavaScript numbers and exact below
    [2^53], and, as title, the trimmed text around it. *)
Theorem parseFlexibleTimestamps_bare_line :
  (forall pre dm ds rest,
     forallb opens_no_timestamp pre = true ->
     dm <> [] -> ds <> [] -> forallb is_digit dm = true -> forallb is_digit ds = true ->
     starts_outside CDigit rest = true -> hd_error rest <> Some ":"%char ->
     parseFlexibleTimestamps (pre ++ dm ++ ":"%char :: ds ++ rest) =
       (js_total None dm ds, trim (pre ++ rest)) /\
     ((exact_total None dm ds < 2 ^ 53)%Z -> js_total None dm ds = Num (exact_total None dm ds))) /\
  (forall pre dh dm ds rest,
     forallb opens_no_timestamp pre = true ->
     dh <> [] -> dm <> [] -> ds <> [] ->
     forallb is_digit dh = true -> forallb is_digit dm = true -> forallb is_digit ds = true ->
     starts_outside CDigit rest = true ->
     parseFlexibleTimestamps (pre ++ dh ++ ":"%char :: dm ++ ":"%char :: ds ++ rest) =
       (js_total (Some dh) dm ds, trim (pre ++ rest)) /\
     ((exact_total (Some dh) dm ds < 2 ^ 53)%Z ->
      js_total (Some dh) dm ds = Num (exact_total (Some dh) dm ds))).
Proof.
  split.
  - intros pre dm ds rest Hpre Hdm Hds Ddm Dds Hr Hc.
    split; [|apply js_total_exact; unfold hms_digits; cbn [hours_str];
             rewrite (digit_string_of dm), (digit_string_of ds) by assumption; reflexivity].
    apply injective_projections; [apply pft_two_components; assumption|].
    pose proof (skipn_app_len _ _ _ _ (skipn_prefix pre (dm ++ ":"%char :: ds ++ rest))) as H1.
    destruct (skipn_cons_step _ _ _ _ H1) as [H2 _].
    pose proof (skipn_app_len _ _ _ _ H2) as H3.
    eapply pft_title_after;
      [exact (ts_exec_after_prefix _ _ _ _ Hpre
               (ts_bare_two _ _ _ _ _ (skipn_prefix _ _) Hdm Hds Ddm Dds Hr Hc))
      | rewrite firstn_prefix, H3; reflexivity
      | apply starts_outside_pre; assumption].
  - intros pre dh dm ds rest Hpre Hdh Hdm Hds Ddh Ddm Dds Hr.
    split; [|apply js_total_exact; unfold hms_digits; cbn [hours_str];
             rewrite (digit_string_of dh), (digit_string_of dm), (digit_string_of ds)
               by assumption; reflexivity].
    apply injective_projections; [apply pft_three_components; assumption|].
    pose proof (skipn_app_len _ _ _ _
                  (skipn_prefix pre (dh ++ ":"%char :: dm ++ ":"%char :: ds ++ rest))) as H1.
    destruct (skipn_cons_step _ _ _ _ H1) as [H2 _].
    pose proof (skipn_app_len _ _ _ _ H2) as H3.
    destruct (skipn_cons_step _ _ _ _ H3) as [H4 _].
    pose proof (skipn_app_len _ _ _ _ H4) as H5.
    eapply pft_title_after;
      [exact (ts_exec_after_prefix _ _ _ _ Hpre
               (ts_bare_three _ _ _ _ _ _ (skipn_prefix _ _) Hdh Hdm Hds Ddh Ddm Dds Hr))
      | rewrite firstn_prefix, H5; reflexivity
      | apply starts_outside_pre; assumption].
Qed.

Lemma parseFlexibleTimestamps_bare_line_witness :
  parseFlexibleTimestamps (s2l "Intro 2:05 part one") = (Num 125, s2l "Intro  part one") /\
  parseFlexibleTimestamps (s2l " Talk 1:02:03!") = (Num 3723, s2l "Talk !").
Proof.
  split.
  - destruct (proj1 parseFlexibleTimestamps_bare_line (s2l "Intro ") (s2l "2") (s2l "05")
                (s2l " part one")) as [E _];
      [vm_compute; first [reflexivity | discriminate] ..|].
    change (s2l "Intro 2:05 part one")
      with (s2l "Intro " ++ s2l "2" ++ ":"%char :: s2l "05" ++ s2l " part one").
    rewrite E; vm_compute; reflexivity.
  - destruct (proj2 parseFlexibleTimestamps_bare_line (s2l " Talk ") (s2l "1") (s2l "02")
                (s2l "03") (s2l "!")) as [E _];
      [vm_compute; first [reflexivity | discriminate] ..|].
    change (s2l " Talk 1:02:03!")
      with (s2l " Talk " ++ s2l "1" ++ ":"%char :: s2l "02" ++ ":"%char :: s2l "03" ++ s2l "!").
    rewrite E; vm_compute; reflexivity.
Defined.

(** ** Further properties: [addM] and the formats that use it *)

Lemma first_some_mono {A B C : Type} (f : A -> option B) (g : A -> option C) l :
  (forall x, f x <> None -> g x <> None) -> first_some f l <> None -> first_some g l <> None.
Proof.
  induction l as [|x l IH]; simpl; intros Hfg Hf; [congruence|].
  destruct (g x) eqn:Eg; [discriminate|].
  destruct (f x) eqn:Ef; [exfalso; apply (Hfg x); [rewrite Ef; discriminate|exact Eg]|].
  apply IH; assumption.
Qed.

(** Turning the [m] flag on only lets [^] and [$] match at more places. *)
Lemma mt_ml_mono : forall inp r i cap k1 k2,
  (forall j c, k1 j c <> None -> k2 j c <> None) ->
  mt inp false r i cap k1 <> None -> mt inp true r i cap k2 <> None.
Proof.
  intros inp r; induction r as [| a | c mn g | r1 IH1 r2 IH2 | r1 IH1 r2 IH2 | r IH | n r IH | |];
    intros i cap k1 k2 Hk H; cbn [mt] in *.
  - auto.
  - destruct (nth_error inp i); [destruct (ascii_dec a a0); auto|exact H].
  - eapply first_some_mono; [|exact H]; intros j; apply Hk.
  - eapply IH1; [|exact H]; intros j c; apply IH2, Hk.
  - destruct (mt inp true r1 i cap k2) eqn:E2; [discriminate|].
    destruct (mt inp false r1 i cap k1) eqn:E1.
    + exfalso; apply (IH1 i cap k1 k2 Hk); [rewrite E1; discriminate|exact E2].
    + exact (IH2 i cap k1 k2 Hk H).
  - destruct (mt inp true r i cap k2) eqn:E2; [discriminate|].
    destruct (mt inp false r i cap k1) eqn:E1.
    + exfalso; apply (IH i cap k1 k2 Hk); [rewrite E1; discriminate|exact E2].
    + exact (Hk i cap H).
  - eapply IH; [|exact H]; intros j c; apply Hk.
  - unfold at_bol in *; destruct i as [|j]; [auto|].
    cbn [andb] in H; congruence.
  - unfold at_eol in *; destruct (i =? List.length inp); cbn [orb andb] in *; [auto|congruence].
Qed.

Lemma exec_ml_mono : forall r l, multiline r = false ->
  exec r l <> None -> exec {| rx := rx r; multiline := true |} l <> None.
Proof.
  intros r l Em; unfold exec; cbn [rx multiline]; rewrite Em.
  apply first_some_mono; intros s Hs.
  destruct (mt l false (rx r) s no_captures final_k) as [[e c]|] eqn:Ea; [|congruence].
  destruct (mt l true (rx r) s no_captures final_k) as [[e' c']|] eqn:Eb; [discriminate|].
  exfalso; apply (mt_ml_mono l (rx r) s no_captures final_k final_k);
    [auto|rewrite Ea; discriminate|exact Eb].
Qed.

Lemma addM_test_mono : forall r l, test r l = true -> test (addM r) l = true.
Proof.
  intros r l H; unfold addM; destruct (multiline r) eqn:Em; [exact H|].
  unfold test in *.
  destruct (exec r l) eqn:E1; [|discriminate].
  destruct (exec {| rx := rx r; multiline := true |} l) eqn:E2; [reflexivity|].
  exfalso; apply (exec_ml_mono r l Em); [rewrite E1; discriminate|exact E2].
Qed.

(** For every pattern of the [regex] type, that is, built from the
    constructs this program's patterns use (no lookaround, no
    backreference), [addM r] accepts every line [r] accepts. *)
Theorem addM_test_widens : forall r l, test r l = true -> test (addM r) l = true.
Proof. intros r l H; exact (addM_test_mono r l H). Qed.

Lemma addM_test_widens_witness :
  test prefixRx (s2l "1:30 Middle") = true /\ test (addM prefixRx) (s2l "1:30 Middle") = true.
Proof.
  split; [vm_compute; reflexivity|].
  apply addM_test_widens; vm_compute; reflexivity.
Defined.

Lemma findIndex_found : forall p L l,
  In l L -> p l = true -> exists i, findIndex p L = Some i.
Proof.
  induction L as [|x L IH]; simpl; intros l Hin Hp; [contradiction|].
  destruct (p x) eqn:Ex; [eauto|].
  destruct Hin as [<-|Hin]; [congruence|].
  destruct (IH l Hin Hp) as [i ->]; simpl; eauto.
Qed.

Lemma findIndex_in_skip : forall p L i l,
  findIndex p L = Some i -> In l L -> p l = true -> In l (skipn i L).
Proof.
  induction L as [|x L IH]; simpl; intros i l Hf Hin Hp; [discriminate|].
  destruct (p x) eqn:Ex; [injection Hf as <-; exact Hin|].
  destruct (findIndex p L) as [n|] eqn:E; [|discriminate].
  injection Hf as <-; simpl.
  destruct Hin as [<-|Hin]; [congruence|].
  apply (IH n l); auto.
Qed.

Lemma addM_parser_nonempty : forall r ti xi d l,
  In l (skipEmptyLines d) -> test r l = true -> makeChapterParser (addM r) r ti xi d <> [].
Proof.
  intros r ti xi d l Hin Ht; rewrite makeChapterParser_eq.
  pose proof (addM_test_mono r l Ht) as Ha.
  destruct (findIndex_found _ _ _ Hin Ha) as [i Hi]; rewrite Hi.
  pose proof (findIndex_in_skip _ _ _ _ Hi Hin Ha) as Hs.
  intros E.
  assert (Hc : In (chapterOfLine l) (map chapterOfLine (filter (test r) (skipn i (skipEmptyLines d)))))
    by (apply in_map, filter_In; auto).
  rewrite E in Hc; contradiction.
Qed.

Lemma parseYouTubeChapters_nil_parsers : forall d,
  parseYouTubeChapters d = [] -> forall p, In p formatParsers -> p d = [].
Proof.
  intros d; unfold parseYouTubeChapters.
  destruct (lawfulParser d) eqn:E1; [|cbn [List.length Nat.eqb]; intro H; discriminate H].
  destruct (bracketsParser d) eqn:E2; [|cbn [List.length Nat.eqb]; intro H; discriminate H].
  destruct (parensParser d) eqn:E3; [|cbn [List.length Nat.eqb]; intro H; discriminate H].
  destruct (postfixParser d) eqn:E4; [|cbn [List.length Nat.eqb]; intro H; discriminate H].
  destruct (postfixParenParser d) eqn:E5; [|cbn [List.length Nat.eqb]; intro H; discriminate H].
  cbn [List.length Nat.eqb]; intros E6 p Hp.
  repeat (destruct Hp as [<-|Hp]; [assumption|]); destruct Hp.
Qed.

(** The three formats whose start pattern is their line pattern with the
    [m] flag (postfix, postfix in parentheses, prefix) find a chapter
    whenever some non-empty line matches their line pattern, and then so
    does the cascade. *)
Theorem addM_formats_find_line : forall d l,
  In l (skipEmptyLines d) ->
  (test postfixRx l = true -> postfixParser d <> []) /\
  (test postfixParenRx l = true -> postfixParenParser d <> []) /\
  (test prefixRx l = true -> prefixParser d <> []) /\
  (test postfixRx l || test postfixParenRx l || test prefixRx l = true ->
   parseYouTubeChapters d <> []).
Proof.
  intros d l Hin.
  assert (P1 : test postfixRx l = true -> postfixParser d <> [])
    by (intros; apply (addM_parser_nonempty _ _ _ _ l); assumption).
  assert (P2 : test postfixParenRx l = true -> postfixParenParser d <> [])
    by (intros; apply (addM_parser_nonempty _ _ _ _ l); assumption).
  assert (P3 : test prefixRx l = true -> prefixParser d <> [])
    by (intros; apply (addM_parser_nonempty _ _ _ _ l); assumption).
  repeat split; try assumption.
  intros Ht E; pose proof (parseYouTubeChapters_nil_parsers d E) as Hp.
  apply orb_prop in Ht as [Ht|Ht]; [apply orb_prop in Ht as [Ht|Ht]|].
  - apply (P1 Ht), Hp; do 3 right; left; reflexivity.
  - apply (P2 Ht), Hp; do 4 right; left; reflexivity.
  - apply (P3 Ht), Hp; do 5 right; left; reflexivity.
Qed.

Lemma addM_formats_find_line_witness :
  In (s2l "Middle Bit 1:30") (skipEmptyLines (s2l "Hello" ++ [LF] ++ s2l "Middle Bit 1:30")) /\
  (test postfixRx (s2l "Middle Bit 1:30") = true ->
   postfixParser (s2l "Hello" ++ [LF] ++ s2l "Middle Bit 1:30") <> []).
Proof.
  split; [vm_compute; tauto|].
  apply (addM_formats_find_line (s2l "Hello" ++ [LF] ++ s2l "Middle Bit 1:30")).
  vm_compute; tauto.
Defined.
